(** * yt-extract: a shallow embedding of [yt_extract/__main__.py]

    The script fetches video metadata in batches, extracts a fixed set of
    columns from every returned item and prints a table.  This file embeds
    the pure pipeline (identifier normalisation, batching, duration parsing,
    column extraction, row construction, pipe escaping) and the control flow
    of [main] with its exit codes, and proves the properties stated about
    them.

    Conventions of the embedding.
    - A Python [str] is a [string]; a character stands for the code point of
      the same number, so the model covers the code points 0..255.  White
      space, digits and case are those of Python for these code points.
    - A value produced by [json.loads] (or stored in a row) is a [pyval].
      A dict is an association list in insertion order with distinct keys.
    - A Python [int] is unbounded; [int] applied to a string of more digits
      than the interpreter's default limit raises [ValueError].
    - A call that can raise returns a [result]; an exception that nothing
      catches ends the interpreter with exit status 1.
    - A program is the list of the events it causes (writes to the standard
      streams, requests) together with the way it ends.
    - The libraries the script calls are parameters of the development:
      the network ([urlopen] and the reading of the answer), [json.loads],
      [datetime.fromisoformat] with [strftime], and [tabulate], which is
      taken to return.  [parser.parse_args()] is a parameter too: it
      returns the arguments or ends the program itself (help, usage error).
      [main_argv] is [main()] in full; [main] is its part after
      [parse_args], on an [invocation]: the parsed arguments, the line
      [input] reads and the API key of the environment. *)

From Stdlib Require Import String Ascii List Bool Arith NArith ZArith Lia.
From Stdlib Require Import Numbers.DecimalString Floats.
From Stdlib Require DecimalN DecimalPos.
Import ListNotations.

Local Open Scope string_scope.
Local Open Scope list_scope.

(** ** Python strings *)

Module PyStr.

Local Open Scope string_scope.

(** [str.isspace] on one character, which is also the class [\s] of [re]
    for a [str] pattern: TAB..CR, FS..US, SPACE, NEL and NBSP are the
    white space code points below 256. *)
Definition is_space (c : ascii) : bool :=
  let n := nat_of_ascii c in
  ((9 <=? n)%nat && (n <=? 13)%nat) || ((28 <=? n)%nat && (n <=? 32)%nat)
  || (n =? 133)%nat || (n =? 160)%nat.

(** The class [\d]: below 256 the decimal digits are 0..9 only. *)
Definition is_digit (c : ascii) : bool :=
  let n := nat_of_ascii c in (48 <=? n)%nat && (n <=? 57)%nat.

Definition digit_val (c : ascii) : N := N.of_nat (nat_of_ascii c - 48).

(** ASCII lower-casing, used for matching under [re.IGNORECASE]. *)
Definition lower (c : ascii) : ascii :=
  let n := nat_of_ascii c in
  if (65 <=? n)%nat && (n <=? 90)%nat then ascii_of_nat (n + 32) else c.

(** [eq_ci c l]: the character [c] matches the pattern letter [l] when
    case is ignored. *)
Definition eq_ci (c l : ascii) : bool := Ascii.eqb (lower c) (lower l).

Fixpoint lstrip (s : string) : string :=
  match s with
  | String c r => if is_space c then lstrip r else s
  | EmptyString => EmptyString
  end.

Fixpoint rstrip (s : string) : string :=
  match s with
  | String c r =>
      match rstrip r with
      | EmptyString => if is_space c then EmptyString else String c EmptyString
      | r' => String c r'
      end
  | EmptyString => EmptyString
  end.

(** [s.strip()] *)
Definition strip (s : string) : string := rstrip (lstrip s).

(** The longest prefix of [s] whose characters satisfy [p], and the rest. *)
Fixpoint span (p : ascii -> bool) (s : string) : string * string :=
  match s with
  | String c r =>
      if p c then let (a, b) := span p r in (String c a, b)
      else (EmptyString, s)
  | EmptyString => (EmptyString, EmptyString)
  end.

(** [int(s)] for a string of decimal digits. *)
Fixpoint int_acc (acc : N) (s : string) : N :=
  match s with
  | String c r => int_acc (10 * acc + digit_val c) r
  | EmptyString => acc
  end.

Definition int_of_digits (s : string) : N := int_acc 0 s.

(** [str(n)] for a natural number. *)
Definition str_of_N (n : N) : string := NilEmpty.string_of_uint (N.to_uint n).

Fixpoint zeros (k : nat) : string :=
  match k with
  | O => EmptyString
  | S k' => String "0" (zeros k')
  end.

(** [f"{n:0wd}"] for a natural number: zeros on the left up to width [w]. *)
Definition zfill (w : nat) (s : string) : string := zeros (w - String.length s) ++ s.

Definition format_02d (n : N) : string := zfill 2 (str_of_N n).

(** [sep.join(parts)] *)
Fixpoint join (sep : string) (parts : list string) : string :=
  match parts with
  | [] => EmptyString
  | [p] => p
  | p :: rest => p ++ sep ++ join sep rest
  end.

(** [s.replace(c, by)] for a one-character needle. *)
Fixpoint replace_char (c : ascii) (by_ : string) (s : string) : string :=
  match s with
  | String x r =>
      if Ascii.eqb x c then by_ ++ replace_char c by_ r
      else String x (replace_char c by_ r)
  | EmptyString => EmptyString
  end.

Definition is_empty (s : string) : bool :=
  match s with EmptyString => true | _ => false end.

End PyStr.

(** ** Python values and exceptions *)

(** What [json.loads] can return, which is also what a row cell can hold. *)
#[warnings="-register-all"]
Inductive pyval : Type :=
| PNone
| PBool (b : bool)
| PInt (z : Z)
| PFloat (f : float)
| PStr (s : string)
| PList (l : list pyval)
| PDict (d : list (string * pyval)).

Inductive exn : Type :=
| AttributeError
| TypeError
| ValueError
| OtherError.

Inductive result (A : Type) : Type :=
| Ok (a : A)
| Raise (e : exn).
Arguments Ok {A} a.
Arguments Raise {A} e.

Definition bind {A B : Type} (r : result A) (k : A -> result B) : result B :=
  match r with
  | Ok a => k a
  | Raise e => Raise e
  end.

Notation "x <- r ;; k" := (bind r (fun x => k))
  (at level 61, r at next level, right associativity).

(** Truth value of an object, as [not], [or] and [if] test it. *)
Definition truthy (v : pyval) : bool :=
  match v with
  | PNone => false
  | PBool b => b
  | PInt z => negb (Z.eqb z 0)
  | PFloat f => negb (PrimFloat.eqb f PrimFloat.zero)
  | PStr s => negb (PyStr.is_empty s)
  | PList l => match l with [] => false | _ => true end
  | PDict d => match d with [] => false | _ => true end
  end.

(** [a or b] *)
Definition py_or (a b : pyval) : pyval := if truthy a then a else b.

(** Lookup of a key in a dict, kept as an association list in insertion
    order. *)
Fixpoint dict_lookup {V : Type} (d : list (string * V)) (k : string) : option V :=
  match d with
  | [] => None
  | (k', v) :: rest => if String.eqb k' k then Some v else dict_lookup rest k
  end.

(** [obj.get(k, default)]: only a dict has the method. *)
Definition py_get (obj : pyval) (k : string) (default : pyval) : result pyval :=
  match obj with
  | PDict d =>
      match dict_lookup d k with
      | Some v => Ok v
      | None => Ok default
      end
  | _ => Raise AttributeError
  end.

(** ** Duration (ISO 8601) *)

(** One optional component [(?:(\d+)X)?] of [DURATION_RE], tried at the head
    of [s]: the captured digits and what follows the letter, or no capture
    and [s] itself.  The digit run is taken greedily; giving digits back
    cannot help, since the letter would then face a digit. *)
Definition opt_component (letter : ascii) (s : string) : option string * string :=
  match PyStr.span PyStr.is_digit s with
  | (String d ds, String c rest) =>
      if PyStr.eq_ci c letter then (Some (String d ds), rest) else (None, s)
  | _ => (None, s)
  end.

(** [DURATION_RE.match(s)]: a match anchored at the start only; [m.groups()]
    when it matches. *)
Definition DURATION_RE_match (s : string)
  : option (option string * option string * option string) :=
  match s with
  | String p (String t r) =>
      if PyStr.eq_ci p "P" && PyStr.eq_ci t "T" then
        let (h, r1) := opt_component "H" r in
        let (mn, r2) := opt_component "M" r1 in
        let (sec, _) := opt_component "S" r2 in
        Some (h, mn, sec)
      else None
  | _ => None
  end.

(** The interpreter's default limit on the digits of a conversion between
    [int] and [str] ([sys.get_int_max_str_digits()]). *)
Definition INT_MAX_STR_DIGITS : nat := 4300.

(** [int(g or 0)] for a group of [m.groups()]: a captured group is a
    non-empty string, hence true; [int] refuses a string of more digits than
    the limit. *)
Definition int_group (g : option string) : result N :=
  match g with
  | Some ds =>
      if (String.length ds <=? INT_MAX_STR_DIGITS)%nat
      then Ok (PyStr.int_of_digits ds)
      else Raise ValueError
  | None => Ok 0%N
  end.

Definition parse_duration (iso_duration : pyval) : result pyval :=
  if negb (truthy iso_duration) then Ok (PStr "")
  else
    match iso_duration with
    | PStr raw =>
        match DURATION_RE_match (PyStr.strip raw) with
        | None => Ok iso_duration
        | Some (h, mn, s) =>
            h <- int_group h ;;
            mn <- int_group mn ;;
            s <- int_group s ;;
            let parts := if N.eqb h 0 then [] else [PyStr.str_of_N h] in
            let parts := (parts ++ [PyStr.format_02d mn])%list in
            let parts := (parts ++ [PyStr.format_02d s])%list in
            Ok (PStr (PyStr.join ":" parts))
        end
    | _ => Raise AttributeError
    end.

(** ** Table columns *)

Section Pipeline.

(** [datetime.fromisoformat(x).strftime("%Y-%m-%d")], [None] when the
    library raises. *)
Variable iso_date : string -> option string.

(** [(item.get(sub) or {}).get(field, default)] *)
Definition sub_get (item : pyval) (sub field : string) (default : pyval)
  : result pyval :=
  m <- py_get item sub PNone ;;
  py_get (py_or m (PDict [])) field default.

Definition _col_id (item : pyval) : result pyval :=
  py_get item "id" (PStr "").

Definition _col_title (item : pyval) : result pyval :=
  sub_get item "snippet" "title" (PStr "").

(** A [raw] that is not a [str] has no [replace]: the [AttributeError] is
    raised inside the [try] and the handler returns [raw]. *)
Definition _col_publication_date (item : pyval) : result pyval :=
  raw <- sub_get item "snippet" "publishedAt" (PStr "") ;;
  if negb (truthy raw) then Ok (PStr "")
  else
    match raw with
    | PStr r =>
        match iso_date (PyStr.replace_char "Z" "+00:00" r) with
        | Some d => Ok (PStr d)
        | None => Ok raw
        end
    | _ => Ok raw
    end.

Definition _col_channel_title (item : pyval) : result pyval :=
  sub_get item "snippet" "channelTitle" (PStr "").

Definition _col_view_count (item : pyval) : result pyval :=
  sub_get item "statistics" "viewCount" (PStr "0").

Definition _col_like_count (item : pyval) : result pyval :=
  sub_get item "statistics" "likeCount" (PStr "0").

Definition _col_comment_count (item : pyval) : result pyval :=
  sub_get item "statistics" "commentCount" (PStr "0").

Definition _col_duration (item : pyval) : result pyval :=
  raw <- sub_get item "contentDetails" "duration" (PStr "") ;;
  parse_duration raw.

Definition extractor : Type := pyval -> result pyval.

(** Column id -> (header label, extractor), in the order of the source. *)
Definition COLUMN_EXTRACTORS : list (string * (string * extractor)) :=
  [ ("id", ("id", _col_id));
    ("title", ("title", _col_title));
    ("publication_date", ("publication date", _col_publication_date));
    ("channel_title", ("channel title", _col_channel_title));
    ("view_count", ("view count", _col_view_count));
    ("like_count", ("like count", _col_like_count));
    ("comment_count", ("comment count", _col_comment_count));
    ("duration", ("duration", _col_duration)) ].

Definition DEFAULT_TABLE_COLUMNS : list string :=
  [ "id"; "title"; "publication_date"; "channel_title";
    "view_count"; "like_count"; "comment_count"; "duration" ].

(** A row is a dict from label to cell, in insertion order. *)
Definition row : Type := list (string * pyval).

(** [d[k] = v]: a key already present keeps its place and takes the new
    value; a new key goes to the end. *)
Fixpoint dict_set {V : Type} (d : list (string * V)) (k : string) (v : V)
  : list (string * V) :=
  match d with
  | [] => [(k, v)]
  | (k', v') :: rest =>
      if String.eqb k' k then (k', v) :: rest
      else (k', v') :: dict_set rest k v
  end.

Definition escape_cell (v : pyval) : pyval :=
  match v with
  | PStr s => PStr (PyStr.replace_char "|" "\|" s)
  | _ => v
  end.

Definition _escape_pipes_for_markdown (rows : list row) : list row :=
  map (fun r : row => map (fun kv => (fst kv, escape_cell (snd kv))) r) rows.

(** The inner loop of [items_to_rows]: the columns of one item, added to
    [r] in the order of [columns]. *)
Fixpoint fill_row (item : pyval) (columns : list string) (r : row)
  : result row :=
  match columns with
  | [] => Ok r
  | col_id :: rest =>
      match dict_lookup COLUMN_EXTRACTORS col_id with
      | None => fill_row item rest r
      | Some (label, extract) =>
          v <- extract item ;;
          fill_row item rest (dict_set r label v)
      end
  end.

Fixpoint rows_loop (items : list pyval) (columns : list string)
         (rows : list row) : result (list row) :=
  match items with
  | [] => Ok rows
  | item :: rest =>
      r <- fill_row item columns [] ;;
      rows_loop rest columns (rows ++ [r])
  end.

(** [columns or DEFAULT_TABLE_COLUMNS]: [None] and the empty list are
    both false. *)
Definition columns_or_default (columns : option (list string)) : list string :=
  match columns with
  | Some (c :: cs) => c :: cs
  | _ => DEFAULT_TABLE_COLUMNS
  end.

Definition items_to_rows (items : list pyval) (columns : option (list string))
  : result (list row) :=
  rows_loop items (columns_or_default columns) [].

(** ** Input: normalize IDs *)

(** The class [[\s,]] of the split pattern. *)
Definition is_sep (c : ascii) : bool := PyStr.is_space c || Ascii.eqb c ",".

(** [re.split(r"[\s,]+", s)], scanning [s] from the left; [in_run] says
    that the character before was a separator.  The result starts with the
    piece being read; a run of separators closes it once. *)
Fixpoint split_from (in_run : bool) (s : string) : list string :=
  match s with
  | EmptyString => [EmptyString]
  | String c r =>
      if is_sep c then
        if in_run then split_from true r
        else EmptyString :: split_from true r
      else
        match split_from false r with
        | p :: ps => String c p :: ps
        | [] => [String c EmptyString]
        end
  end.

Definition re_split (s : string) : list string := split_from false s.

(** The inner loop of [normalize_ids] over the parts of one string. *)
Fixpoint keep_parts (parts : list string) (out : list string) : list string :=
  match parts with
  | [] => out
  | part :: rest =>
      let part := PyStr.strip part in
      if PyStr.is_empty part then keep_parts rest out
      else keep_parts rest (out ++ [part])
  end.

Fixpoint normalize_loop (raw : list string) (out : list string) : list string :=
  match raw with
  | [] => out
  | s :: rest => normalize_loop rest (keep_parts (re_split s) out)
  end.

Definition normalize_ids (raw : list string) : list string :=
  normalize_loop raw [].

End Pipeline.

(** ** Programs: output, requests and exits *)

(** What the process does that can be observed from outside. *)
Inductive event : Type :=
| Stderr (line : string)
| Stdout (text : string)
| Prompt (text : string)
| HttpGet (url : string).

(** How a call ends: it returns, [sys.exit(code)] was called, or an
    exception that nothing catches is on its way up. *)
Inductive outcome (A : Type) : Type :=
| Return (a : A)
| SysExit (code : Z)
| Uncaught (e : exn).
Arguments Return {A} a.
Arguments SysExit {A} code.
Arguments Uncaught {A} e.

(** A program: the events it caused, in order, and how it ended. *)
Definition prog (A : Type) : Type := list event * outcome A.

Definition pret {A : Type} (a : A) : prog A := ([], Return a).

Definition pbind {A B : Type} (p : prog A) (k : A -> prog B) : prog B :=
  match p with
  | (log, Return a) => let (log', o) := k a in (log ++ log', o)
  | (log, SysExit c) => (log, SysExit c)
  | (log, Uncaught e) => (log, Uncaught e)
  end.

Notation "x <~ p ;; k" := (pbind p (fun x => k))
  (at level 61, p at next level, right associativity).
Notation "p ;;; k" := (pbind p (fun _ => k))
  (at level 61, right associativity).

Definition emit (e : event) : prog unit := ([e], Return tt).
Definition sys_exit {A : Type} (code : Z) : prog A := ([], SysExit code).

(** A call that may raise, made where no handler is in scope. *)
Definition lift {A : Type} (r : result A) : prog A :=
  match r with
  | Ok a => pret a
  | Raise e => ([], Uncaught e)
  end.

(** The exit status of the process for the outcome of [main]: 0 when it
    returns, the code of [sys.exit], 1 for an uncaught exception. *)
Definition exit_status {A : Type} (o : outcome A) : Z :=
  match o with
  | Return _ => 0%Z
  | SysExit c => c
  | Uncaught _ => 1%Z
  end.

(** ** URL encoding *)

Module Url.

Local Open Scope string_scope.

Definition hex_digit (n : nat) : ascii :=
  if (n <? 10)%nat then ascii_of_nat (48 + n) else ascii_of_nat (55 + n).

(** [%XX] for one byte. *)
Definition percent (b : nat) : string :=
  String "%" (String (hex_digit (b / 16)) (String (hex_digit (b mod 16)) "")).

(** Letters, digits and [_.-~] are never quoted. *)
Definition always_safe (c : ascii) : bool :=
  let n := nat_of_ascii c in
  ((65 <=? n)%nat && (n <=? 90)%nat) || ((97 <=? n)%nat && (n <=? 122)%nat)
  || ((48 <=? n)%nat && (n <=? 57)%nat)
  || (n =? 95)%nat || (n =? 46)%nat || (n =? 45)%nat || (n =? 126)%nat.

(** The UTF-8 bytes of a code point below 256, each quoted. *)
Definition quote_char (c : ascii) : string :=
  let n := nat_of_ascii c in
  if (n <? 128)%nat then percent n
  else percent (192 + n / 64) ++ percent (128 + n mod 64).

(** [quote_plus(s)] with the empty [safe] that [urlencode] passes. *)
Fixpoint quote_plus (s : string) : string :=
  match s with
  | EmptyString => EmptyString
  | String c r =>
      if always_safe c then String c (quote_plus r)
      else if Ascii.eqb c " " then String "+" (quote_plus r)
      else quote_char c ++ quote_plus r
  end.

(** [urlencode(params)] for a dict of strings, in insertion order. *)
Definition urlencode (params : list (string * string)) : string :=
  PyStr.join "&"
    (map (fun kv => quote_plus (fst kv) ++ "=" ++ quote_plus (snd kv)) params).

End Url.

(** ** API *)

Definition API_BASE : string := "https://www.googleapis.com/youtube/v3/videos".
Definition PARTS : string := "snippet,contentDetails,statistics".
Definition BATCH_SIZE : nat := 50.

(** What [urlopen(req)] followed by [resp.read().decode()] does.
    - [HTTPError code body]: [urlopen] raises [HTTPError] and the handler
      gets the text [body] from [e.read().decode() if e.fp else ""].
    - [URLError reason]: [urlopen] raises [URLError].
    - [OtherFailure]: something is raised that the loop has no handler
      for.
    - [Response data]: the text of the answer.
    - [HTTPErrorUnread code]: [urlopen] raises [HTTPError] and, inside the
      handler, reading or decoding the body raises in its turn. *)
Inductive http_result : Type :=
| HTTPError (code : N) (body : string)
| URLError (reason : string)
| OtherFailure
| Response (data : string)
| HTTPErrorUnread (code : N).

(** [range(0, n, step)] *)
Definition range_step (n step : nat) : list nat :=
  map (fun k => k * step) (seq 0 ((n + step - 1) / step)).

(** [l[i:j]] *)
Definition slice {A : Type} (l : list A) (i j : nat) : list A :=
  firstn (j - i) (skipn i l).

(** [for x in v]: the elements a value yields when iterated. *)
Definition py_iter (v : pyval) : result (list pyval) :=
  match v with
  | PList l => Ok l
  | PStr s => Ok (map (fun c => PStr (String c EmptyString)) (list_ascii_of_string s))
  | PDict d => Ok (map (fun kv => PStr (fst kv)) d)
  | _ => Raise TypeError
  end.

Definition request_url (api_key : string) (chunk : list string) : string :=
  API_BASE ++ "?" ++
  Url.urlencode [("key", api_key); ("part", PARTS); ("id", PyStr.join "," chunk)].

Section Program.

Variable iso_date : string -> option string.

(** The network: the answer to the [n]-th request of the run, for its
    URL. *)
Variable urlopen : nat -> string -> http_result.

(** [json.loads(data)]: the value, or the message of the exception. *)
Variable json_loads : string -> string + pyval.

(** [tabulate(rows, headers="keys", tablefmt=tablefmt)] *)
Variable tabulate : list row -> string -> string.

Definition get_api_key (environ : option string) : prog string :=
  let key := PyStr.strip (match environ with Some v => v | None => "" end) in
  if PyStr.is_empty key then
    emit (Stderr "yt-extract: Set YOUTUBE_DATA_API_KEY in your environment.") ;;;
    sys_exit 1
  else pret key.

(** The loop of [fetch_videos] over the start indices [starts]; [n]
    requests were made before. *)
Fixpoint fetch_loop (api_key : string) (video_ids : list string)
         (starts : list nat) (n : nat) (all_items : list pyval)
  : prog (list pyval) :=
  match starts with
  | [] => pret all_items
  | i :: rest =>
      let chunk := slice video_ids i (i + BATCH_SIZE) in
      let url := request_url api_key chunk in
      emit (HttpGet url) ;;;
      match urlopen n url with
      | HTTPError code body =>
          emit (Stderr ("yt-extract: API error " ++ PyStr.str_of_N code
                        ++ ": " ++ substring 0 500 body)) ;;;
          sys_exit 1
      | URLError reason =>
          emit (Stderr ("yt-extract: Request failed: " ++ reason)) ;;;
          sys_exit 1
      | OtherFailure => lift (Raise OtherError)
      | HTTPErrorUnread _ => lift (Raise OtherError)
      | Response data =>
          match json_loads data with
          | inl e =>
              emit (Stderr ("yt-extract: Invalid JSON response: " ++ e)) ;;;
              sys_exit 1
          | inr payload =>
              got <~ lift (py_get payload "items" PNone) ;;
              new <~ lift (py_iter (py_or got (PList []))) ;;
              fetch_loop api_key video_ids rest (S n) (all_items ++ new)
          end
      end
  end.

Definition fetch_videos (api_key : string) (video_ids : list string)
  : prog (list pyval) :=
  fetch_loop api_key video_ids
    (range_step (length video_ids) BATCH_SIZE) 0 [].

Inductive table_format : Type := Markdown | Grid.

(** The command line after [parse_args], the line [input] reads ([None]
    at end of input) and the value of [YOUTUBE_DATA_API_KEY]. *)
Record invocation : Type := {
  arg_video_ids : list string;
  arg_format : table_format;
  stdin_line : option string;
  environ_key : option string
}.

(** An object that can go into a set. *)
Definition hashable (v : pyval) : bool :=
  match v with
  | PList _ | PDict _ => false
  | _ => true
  end.

(** [{item.get("id") for item in items}], kept as the list of its
    members. *)
Fixpoint found_ids_of (items : list pyval) : result (list pyval) :=
  match items with
  | [] => Ok []
  | item :: rest =>
      v <- py_get item "id" PNone ;;
      if hashable v then (vs <- found_ids_of rest ;; Ok (v :: vs))
      else Raise TypeError
  end.

(** [vid in found_ids] for a string [vid]. *)
Definition in_found (vid : string) (found : list pyval) : bool :=
  existsb (fun v => match v with PStr s => String.eqb s vid | _ => false end)
          found.

Fixpoint report_missing (video_ids : list string) (found : list pyval)
  : prog unit :=
  match video_ids with
  | [] => pret tt
  | vid :: rest =>
      (if in_found vid found then pret tt
       else emit (Stderr ("yt-extract: Not found: " ++ vid))) ;;;
      report_missing rest found
  end.

Definition read_ids (inv : invocation) : prog (list string) :=
  match arg_video_ids inv with
  | [] =>
      emit (Prompt "Enter video ID(s), comma- or space-separated: ") ;;;
      match stdin_line inv with
      | None =>
          emit (Stderr "yt-extract: No video IDs provided.") ;;;
          sys_exit 1
      | Some l =>
          let line := PyStr.strip l in
          pret (if PyStr.is_empty line then [] else [line])
      end
  | ids => pret ids
  end.

(** The part of [main()] that follows [args = parser.parse_args()], on the
    parsed arguments; [main_argv] below is [main()] with [parse_args]
    before it. *)
Definition main (inv : invocation) : prog unit :=
  video_ids <~ read_ids inv ;;
  let video_ids := normalize_ids video_ids in
  match video_ids with
  | [] =>
      emit (Stderr "yt-extract: No video IDs provided.") ;;;
      sys_exit 1
  | _ =>
      api_key <~ get_api_key (environ_key inv) ;;
      items <~ fetch_videos api_key video_ids ;;
      found_ids <~ lift (found_ids_of items) ;;
      report_missing video_ids found_ids ;;;
      rows <~ lift (items_to_rows iso_date items None) ;;
      match rows with
      | [] => sys_exit 1
      | _ =>
          let tablefmt :=
            match arg_format inv with Markdown => "pipe" | Grid => "grid" end in
          let rows :=
            if String.eqb tablefmt "pipe" then _escape_pipes_for_markdown rows
            else rows in
          emit (Stdout (tabulate rows tablefmt))
      end
  end.

End Program.

(** ** Vocabulary of the statements *)

(** Every character of [s] satisfies [p]. *)
Fixpoint all_chars (p : ascii -> bool) (s : string) : bool :=
  match s with
  | EmptyString => true
  | String c r => p c && all_chars p r
  end.

(** A captured group is a non-empty run of digits. *)
Definition digits_ok (g : option string) : bool :=
  match g with
  | Some ds => negb (PyStr.is_empty ds) && all_chars PyStr.is_digit ds
  | None => true
  end.

(** A captured group is short enough for [int]. *)
Definition short_ok (g : option string) : bool :=
  match g with
  | Some ds => (String.length ds <=? INT_MAX_STR_DIGITS)%nat
  | None => true
  end.

(** The number a group stands for, zero when it is left out. *)
Definition group_val (g : option string) : N :=
  match g with
  | Some ds => PyStr.int_of_digits ds
  | None => 0%N
  end.

(** The components the pattern finds in the duration text [s] are short
    enough for [int]. *)
Definition duration_text_ok (s : string) : bool :=
  match DURATION_RE_match (PyStr.strip s) with
  | Some (h, mn, sec) => short_ok h && short_ok mn && short_ok sec
  | None => true
  end.

(** The text of one component [nX] of a duration, empty when it is left
    out. *)
Definition component (g : option string) (letter : ascii) : string :=
  match g with
  | Some ds => ds ++ String letter EmptyString
  | None => EmptyString
  end.

(** A string of the form [PT[nH][nM][nS]], with the five letters as given. *)
Definition iso_form (lp lt lh lm ls : ascii) (h mn s : option string) : string :=
  String lp (String lt (component h lh ++ component mn lm ++ component s ls)).

(** The clock text for hours, minutes and seconds, with and without the
    hours field. *)
Definition clock_hms (h mn s : N) : string :=
  PyStr.str_of_N h ++ ":" ++ PyStr.format_02d mn ++ ":" ++ PyStr.format_02d s.

Definition clock_ms (mn s : N) : string :=
  PyStr.format_02d mn ++ ":" ++ PyStr.format_02d s.

(** [s] begins with the two letters of the pattern, in either case. *)
Definition starts_with_PT (s : string) : bool :=
  match s with
  | String p (String t _) => PyStr.eq_ci p "P" && PyStr.eq_ci t "T"
  | _ => false
  end.


(** The sub-mapping [sub] of the item [d] is absent, a false value or a
    mapping. *)
Definition sub_ok (d : list (string * pyval)) (sub : string) : bool :=
  match dict_lookup d sub with
  | None => true
  | Some (PDict _) => true
  | Some v => negb (truthy v)
  end.

(** The duration of the item [d], when there is one, is a false value or a
    string whose components are short enough for [int]. *)
Definition duration_ok (d : list (string * pyval)) : bool :=
  match dict_lookup d "contentDetails" with
  | Some (PDict m) =>
      match dict_lookup m "duration" with
      | None => true
      | Some (PStr s) => duration_text_ok s
      | Some v => negb (truthy v)
      end
  | _ => true
  end.

(** An item of the shape the extractors are written for. *)
Definition item_ok (item : pyval) : bool :=
  match item with
  | PDict d =>
      sub_ok d "snippet" && sub_ok d "contentDetails" && sub_ok d "statistics"
      && duration_ok d
  | _ => false
  end.

(** The labels of the columns of [columns] that the registry knows, in the
    order of [columns]. *)
Fixpoint known_labels (iso_date : string -> option string)
         (columns : list string) : list string :=
  match columns with
  | [] => []
  | col_id :: rest =>
      match dict_lookup (COLUMN_EXTRACTORS iso_date) col_id with
      | Some (label, _) => label :: known_labels iso_date rest
      | None => known_labels iso_date rest
      end
  end.

(** [l] joins the labels seen so far, at the end, unless it is there. *)
Definition add_label (seen : list string) (l : string) : list string :=
  if existsb (fun x => String.eqb x l) seen then seen else seen ++ [l].

(** The labels of a row built for [columns]: each known column once, at the
    place of its first occurrence in [columns]. *)
Definition row_labels (iso_date : string -> option string)
           (columns : list string) : list string :=
  fold_left add_label (known_labels iso_date columns) [].

Definition keys {V : Type} (d : list (string * V)) : list string := map fst d.

(** The eight labels of the registry, in its order. *)
Definition DEFAULT_LABELS : list string :=
  [ "id"; "title"; "publication date"; "channel title";
    "view count"; "like count"; "comment count"; "duration" ].

(** The statement's reading of the normaliser: a string is cut at every
    comma and white space character, and the pieces that are not empty are
    its tokens. *)
Fixpoint split_on (p : ascii -> bool) (s : string) : list string :=
  match s with
  | EmptyString => [EmptyString]
  | String c r =>
      if p c then EmptyString :: split_on p r
      else
        match split_on p r with
        | piece :: pieces => String c piece :: pieces
        | [] => [String c EmptyString]
        end
  end.

Definition non_empty (s : string) : bool := negb (PyStr.is_empty s).

Definition spec_tokens (s : string) : list string :=
  filter non_empty (split_on is_sep s).

Definition spec_normalize (raw : list string) : list string :=
  flat_map spec_tokens raw.

(** The characters of [s] that are not separators, in order. *)
Fixpoint drop_seps (s : string) : string :=
  match s with
  | EmptyString => EmptyString
  | String c r => if is_sep c then drop_seps r else String c (drop_seps r)
  end.

Definition no_sep (s : string) : bool := all_chars (fun c => negb (is_sep c)) s.

(** The chunks [fetch_videos] cuts the identifiers into, in the order of
    its loop. *)
Definition chunks (video_ids : list string) : list (list string) :=
  map (fun i => slice video_ids i (i + BATCH_SIZE))
      (range_step (length video_ids) BATCH_SIZE).

Section Answers.

Variable urlopen : nat -> string -> http_result.
Variable json_loads : string -> string + pyval.

(** The items array of the answer to request number [n] for [url]: the
    elements of [payload.get("items") or []], when the request succeeds,
    the body decodes to a mapping and its items can be iterated. *)
Definition chunk_items (n : nat) (url : string) : option (list pyval) :=
  match urlopen n url with
  | Response data =>
      match json_loads data with
      | inr payload =>
          match (got <- py_get payload "items" PNone ;;
                 py_iter (py_or got (PList []))) with
          | Ok new => Some new
          | Raise _ => None
          end
      | inl _ => None
      end
  | _ => None
  end.

(** The items arrays of the answers to the requests [urls], numbered from
    [n], one after the other; [None] when one of them has none. *)
Fixpoint all_items_of (n : nat) (urls : list string) : option (list pyval) :=
  match urls with
  | [] => Some []
  | url :: rest =>
      match chunk_items n url, all_items_of (S n) rest with
      | Some new, Some others => Some (new ++ others)
      | _, _ => None
      end
  end.

End Answers.

(** The requests a log shows, in order. *)
Fixpoint requests_of (log : list event) : list string :=
  match log with
  | [] => []
  | HttpGet url :: rest => url :: requests_of rest
  | _ :: rest => requests_of rest
  end.

(** The texts a log shows on standard output, in order. *)
Fixpoint stdout_of (log : list event) : list string :=
  match log with
  | [] => []
  | Stdout text :: rest => text :: stdout_of rest
  | _ :: rest => stdout_of rest
  end.

(** A program that, when it does not return, ends with exit status 1. *)
Definition exits_with_1 {A : Type} (p : prog A) : Prop :=
  match snd p with
  | Return _ => True
  | o => exit_status o = 1%Z
  end.

(** The identifiers of an invocation: those of the command line, or of the
    line read when there are none, normalised. *)
Definition requested_ids (inv : invocation) : list string :=
  normalize_ids
    match arg_video_ids inv with
    | [] =>
        match stdin_line inv with
        | Some l =>
            if PyStr.is_empty (PyStr.strip l) then [] else [PyStr.strip l]
        | None => []
        end
    | ids => ids
    end.

(** The API key of an invocation, as [get_api_key] reads it. *)
Definition api_key_of (inv : invocation) : string :=
  PyStr.strip (match environ_key inv with Some v => v | None => "" end).

(** The URLs of the requests for the chunks of [video_ids], in order. *)
Definition chunk_urls (api_key : string) (video_ids : list string) : list string :=
  map (request_url api_key) (chunks video_ids).

(** The URL of the request for the chunk that starts at index [i]. *)
Definition url_at (api_key : string) (video_ids : list string) (i : nat) : string :=
  request_url api_key (slice video_ids i (i + BATCH_SIZE)).

(** A program whose log shows nothing on standard output unless it
    returns. *)
Definition quiet_unless_returns {A : Type} (p : prog A) : Prop :=
  match snd p with
  | Return _ => True
  | _ => stdout_of (fst p) = []
  end.

(** The rows handed to [tabulate] and the name of the table style, for a
    format. *)
Definition shown_rows (f : table_format) (rows : list row) : list row :=
  match f with
  | Markdown => _escape_pipes_for_markdown rows
  | Grid => rows
  end.

Definition tablefmt_of (f : table_format) : string :=
  match f with
  | Markdown => "pipe"
  | Grid => "grid"
  end.

(** The cell of a row under a label. *)
Definition cell (r : row) (label : string) : option pyval := dict_lookup r label.

(** ** Vocabulary of the further properties *)

(** [s] is made of white space only. *)
Definition blank (s : string) : bool := all_chars PyStr.is_space s.

(** [s] does not begin with white space. *)
Definition starts_clean (s : string) : bool :=
  match s with
  | String c _ => negb (PyStr.is_space c)
  | EmptyString => true
  end.

(** [s] does not end with white space. *)
Fixpoint ends_clean (s : string) : bool :=
  match s with
  | EmptyString => true
  | String c EmptyString => negb (PyStr.is_space c)
  | String _ r => ends_clean r
  end.

(** The characters a quoted string is made of: those never quoted, the
    percent sign and the plus sign. *)
Definition url_char_ok (c : ascii) : bool :=
  Url.always_safe c || Ascii.eqb c "%" || Ascii.eqb c "+".

(** How often the character [c] occurs in [s]. *)
Fixpoint count_char (c : ascii) (s : string) : nat :=
  match s with
  | EmptyString => O
  | String x r => (if Ascii.eqb x c then 1 else 0) + count_char c r
  end.

(** A token: a non-empty string without separators. *)
Definition is_token (t : string) : Prop := non_empty t = true /\ no_sep t = true.

(** The lines a log shows on standard error, in order. *)
Fixpoint stderr_of (log : list event) : list string :=
  match log with
  | [] => []
  | Stderr line :: rest => line :: stderr_of rest
  | _ :: rest => stderr_of rest
  end.

(** The identifiers of [video_ids] that are not the id of a fetched item,
    in order. *)
Definition missing_ids (video_ids : list string) (found : list pyval) : list string :=
  filter (fun vid => negb (in_found vid found)) video_ids.

Definition not_found_line (vid : string) : string := "yt-extract: Not found: " ++ vid.

(** What [read_ids] writes before it returns: the prompt, when the command
    line has no identifier. *)
Definition prompt_log (inv : invocation) : list event :=
  match arg_video_ids inv with
  | [] => [Prompt "Enter video ID(s), comma- or space-separated: "]
  | _ => []
  end.

(** In [s] every pipe comes right after a backslash; [after_backslash] says
    that the character before was one. *)
Fixpoint pipes_escaped (after_backslash : bool) (s : string) : bool :=
  match s with
  | EmptyString => true
  | String c r =>
      (if Ascii.eqb c "|" then after_backslash else true)
      && pipes_escaped (Ascii.eqb c "\") r
  end.

(** Reading an escaped string back: a backslash before a pipe is dropped. *)
Fixpoint unescape_pipes (s : string) : string :=
  match s with
  | EmptyString => EmptyString
  | String c r =>
      match r with
      | String "|" r' =>
          if Ascii.eqb c "\" then String "|" (unescape_pipes r')
          else String c (unescape_pipes r)
      | _ => String c (unescape_pipes r)
      end
  end.

(** The decimal text of a number is made of digits and colons only. *)
Definition clock_char (c : ascii) : bool := PyStr.is_digit c || Ascii.eqb c ":".

(** The canonical text of a duration of [h] hours, [mn] minutes and [s]
    seconds. *)
Definition iso_of (h mn s : N) : string :=
  "PT" ++ PyStr.str_of_N h ++ "H" ++ PyStr.str_of_N mn ++ "M"
  ++ PyStr.str_of_N s ++ "S".


(** An item whose id can go into the set of found ids: the item is a
    mapping, and its id, if any, is not a list or a mapping. *)
Definition item_id_ok (item : pyval) : bool :=
  match item with
  | PDict d =>
      match dict_lookup d "id" with
      | Some v => hashable v
      | None => true
      end
  | _ => false
  end.

(** The id of an item as [item.get("id")] gives it. *)
Definition id_of (item : pyval) : pyval :=
  match item with
  | PDict d =>
      match dict_lookup d "id" with
      | Some v => v
      | None => PNone
      end
  | _ => PNone
  end.

(** The lines that report identifiers as not found. *)
Definition not_found_log (video_ids : list string) (found : list pyval)
  : list event :=
  map (fun vid => Stderr (not_found_line vid)) (missing_ids video_ids found).


(** A decoded answer has no items: the key is absent or its value is false
    (null, an empty list). *)
Definition items_missing (d : list (string * pyval)) : bool :=
  match dict_lookup d "items" with
  | None => true
  | Some v => negb (truthy v)
  end.

Definition is_dict (v : pyval) : bool :=
  match v with
  | PDict _ => true
  | _ => false
  end.


(** ** The program from the command line *)

(** What [parser.parse_args()] does with the command line.  The parser is
    created with the default [add_help] and has one positional argument and
    the option [--format] with two choices, so [parse_args] returns the
    identifiers and the format, or ends the program itself: for [-h] or
    [--help] it prints the help text on standard output and exits with
    status 0; for a command line it refuses it prints the usage and a
    message on standard error and exits with status 2. *)
Inductive parse_result : Type :=
| Parsed (video_ids : list string) (format : table_format)
| HelpExit (text : string)
| UsageError (message : string).

Section CommandLine.

(** [parser.parse_args()] on the arguments of the command line; which
    command lines it accepts is the library's matter. *)
Variable parse_args : list string -> parse_result.

Variable iso_date : string -> option string.
Variable urlopen : nat -> string -> http_result.
Variable json_loads : string -> string + pyval.
Variable tabulate : list row -> string -> string.

(** [main()] in full, for the arguments [argv], the line [input] would read
    and the API key of the environment: [parse_args], and what follows it,
    which is [main] above. *)
Definition main_argv (argv : list string) (stdin : option string)
           (environ : option string) : prog unit :=
  match parse_args argv with
  | HelpExit text => emit (Stdout text) ;;; sys_exit 0
  | UsageError message => emit (Stderr message) ;;; sys_exit 2
  | Parsed video_ids format =>
      main iso_date urlopen json_loads tabulate
        {| arg_video_ids := video_ids; arg_format := format;
           stdin_line := stdin; environ_key := environ |}
  end.

(** The log shows the table of at least one row. *)
Definition rendered (log : list event) : Prop :=
  exists (rows : list row) (fmt : string),
    rows <> [] /\ In (Stdout (tabulate rows fmt)) log.

End CommandLine.


(** * Properties *)

(** ** Strings *)

Lemma all_chars_app p a b :
  all_chars p (a ++ b) = all_chars p a && all_chars p b.
Proof.
  induction a as [|c a IH]; simpl; [reflexivity|].
  rewrite IH. now rewrite andb_assoc.
Qed.

Lemma lstrip_id s :
  all_chars (fun c => negb (PyStr.is_space c)) s = true -> PyStr.lstrip s = s.
Proof.
  destruct s as [|c r]; simpl; [reflexivity|].
  intros H. apply andb_true_iff in H as [Hc _].
  apply negb_true_iff in Hc. now rewrite Hc.
Qed.

Lemma rstrip_id s :
  all_chars (fun c => negb (PyStr.is_space c)) s = true -> PyStr.rstrip s = s.
Proof.
  induction s as [|c r IH]; simpl; [reflexivity|].
  intros H. apply andb_true_iff in H as [Hc Hr].
  rewrite (IH Hr). apply negb_true_iff in Hc. rewrite Hc.
  now destruct r.
Qed.

Lemma strip_id s :
  all_chars (fun c => negb (PyStr.is_space c)) s = true -> PyStr.strip s = s.
Proof.
  intros H. unfold PyStr.strip. rewrite (lstrip_id s H). now apply rstrip_id.
Qed.

Lemma all_chars_impl (p q : ascii -> bool) s :
  (forall c, p c = true -> q c = true) ->
  all_chars p s = true -> all_chars q s = true.
Proof.
  intros Hpq. induction s as [|c r IH]; simpl; [reflexivity|].
  intros H. apply andb_true_iff in H as [Hc Hr].
  now rewrite (Hpq c Hc), (IH Hr).
Qed.

(** Facts about single characters, checked on all 256 of them. *)
Ltac by_cases_on_char c :=
  destruct c as [[] [] [] [] [] [] [] []]; vm_compute; intros;
  (reflexivity || discriminate || congruence).

Lemma digit_not_space c : PyStr.is_digit c = true -> PyStr.is_space c = false.
Proof. by_cases_on_char c. Qed.

Lemma letter_not_space c l :
  In l ["P"; "T"; "H"; "M"; "S"]%char ->
  PyStr.eq_ci c l = true -> PyStr.is_space c = false.
Proof.
  intros Hl. simpl in Hl.
  repeat (destruct Hl as [<-|Hl]; [by_cases_on_char c|]). contradiction.
Qed.

Lemma letter_not_digit c l :
  In l ["P"; "T"; "H"; "M"; "S"]%char ->
  PyStr.eq_ci c l = true -> PyStr.is_digit c = false.
Proof.
  intros Hl. simpl in Hl.
  repeat (destruct Hl as [<-|Hl]; [by_cases_on_char c|]). contradiction.
Qed.

Lemma eq_ci_H_M c : PyStr.eq_ci c "M" = true -> PyStr.eq_ci c "H" = false.
Proof. by_cases_on_char c. Qed.

Lemma eq_ci_H_S c : PyStr.eq_ci c "S" = true -> PyStr.eq_ci c "H" = false.
Proof. by_cases_on_char c. Qed.

Lemma eq_ci_M_S c : PyStr.eq_ci c "S" = true -> PyStr.eq_ci c "M" = false.
Proof. by_cases_on_char c. Qed.

Lemma string_length_app a b :
  String.length (a ++ b) = (String.length a + String.length b)%nat.
Proof. induction a as [|c a IH]; simpl; [reflexivity|]. now rewrite IH. Qed.

Lemma string_app_assoc (a b c : string) :
  ((a ++ b) ++ c = a ++ (b ++ c))%string.
Proof. induction a as [|x a IH]; simpl; [reflexivity|]. now rewrite IH. Qed.

Lemma zfill_length w s : (w <= String.length (PyStr.zfill w s))%nat.
Proof.
  unfold PyStr.zfill. rewrite string_length_app.
  assert (H : forall k, String.length (PyStr.zeros k) = k)
    by (induction k; simpl; congruence).
  rewrite H. lia.
Qed.

(** ** The duration pattern *)

Lemma span_digits ds c rest :
  all_chars PyStr.is_digit ds = true -> PyStr.is_digit c = false ->
  PyStr.span PyStr.is_digit (ds ++ String c rest) = (ds, String c rest).
Proof.
  intros Hds Hc. induction ds as [|d ds IH]; simpl.
  - now rewrite Hc.
  - simpl in Hds. apply andb_true_iff in Hds as [Hd Hds].
    now rewrite Hd, (IH Hds).
Qed.

Lemma opt_component_nil letter : opt_component letter "" = (None, "").
Proof. reflexivity. Qed.

(** A component that is there: the digits are captured when its letter is
    the one looked for, and nothing is consumed otherwise. *)
Lemma opt_component_some letter ds c rest :
  digits_ok (Some ds) = true -> PyStr.is_digit c = false ->
  opt_component letter (ds ++ String c rest)
  = if PyStr.eq_ci c letter then (Some ds, rest)
    else (None, (ds ++ String c rest)%string).
Proof.
  intros Hds Hc. simpl in Hds. apply andb_true_iff in Hds as [Hne Hds].
  unfold opt_component. rewrite (span_digits ds c rest Hds Hc).
  destruct ds; [discriminate|reflexivity].
Qed.


(** C5: the documented examples of the duration parser. *)
Theorem parse_duration_examples :
  parse_duration (PStr "PT55M5S") = Ok (PStr "55:05")
  /\ parse_duration (PStr "PT1H2M3S") = Ok (PStr "1:02:03")
  /\ parse_duration (PStr "PT5S") = Ok (PStr "00:05")
  /\ parse_duration (PStr "") = Ok (PStr "")
  /\ parse_duration (PStr "garbage") = Ok (PStr "garbage").
Proof. repeat split; vm_compute; reflexivity. Qed.

Lemma component_no_space g l c :
  In l ["P"; "T"; "H"; "M"; "S"]%char -> PyStr.eq_ci c l = true ->
  digits_ok g = true ->
  all_chars (fun x => negb (PyStr.is_space x)) (component g c) = true.
Proof.
  intros Hl Hc Hg. destruct g as [ds|]; simpl; [|reflexivity].
  simpl in Hg. apply andb_true_iff in Hg as [_ Hds].
  rewrite all_chars_app. simpl.
  rewrite (letter_not_space c l Hl Hc). simpl. rewrite andb_true_r.
  apply (all_chars_impl PyStr.is_digit); [|exact Hds].
  intros x Hx. now rewrite (digit_not_space x Hx).
Qed.

(** A component that is there is captured by its own pattern. *)
Lemma opt_component_own letter c ds rest :
  In letter ["H"; "M"; "S"]%char -> PyStr.eq_ci c letter = true ->
  digits_ok (Some ds) = true ->
  opt_component letter (component (Some ds) c ++ rest) = (Some ds, rest).
Proof.
  intros Hl Hc Hds. simpl component. rewrite string_app_assoc. simpl.
  rewrite opt_component_some; [now rewrite Hc|exact Hds|].
  apply (letter_not_digit c letter); [simpl in *; tauto|exact Hc].
Qed.

(** A component of another letter is left where it is. *)
Lemma opt_component_other letter c ds rest :
  PyStr.is_digit c = false -> PyStr.eq_ci c letter = false ->
  digits_ok (Some ds) = true ->
  opt_component letter (component (Some ds) c ++ rest)
  = (None, (component (Some ds) c ++ rest)%string).
Proof.
  intros Hd Hc Hds. simpl component. rewrite string_app_assoc. simpl.
  rewrite opt_component_some; [now rewrite Hc|exact Hds|exact Hd].
Qed.

Lemma string_app_nil_r (a : string) : (a ++ "")%string = a.
Proof. induction a as [|x a IH]; simpl; [reflexivity|]. now rewrite IH. Qed.

Lemma opt_component_own_end letter c ds :
  In letter ["H"; "M"; "S"]%char -> PyStr.eq_ci c letter = true ->
  digits_ok (Some ds) = true ->
  opt_component letter (component (Some ds) c) = (Some ds, "").
Proof.
  intros Hl Hc Hds. rewrite <- (string_app_nil_r (component (Some ds) c)).
  now apply opt_component_own.
Qed.

Lemma opt_component_other_end letter c ds :
  PyStr.is_digit c = false -> PyStr.eq_ci c letter = false ->
  digits_ok (Some ds) = true ->
  opt_component letter (component (Some ds) c)
  = (None, component (Some ds) c).
Proof.
  intros Hd Hc Hds.
  rewrite <- (string_app_nil_r (component (Some ds) c)) at 1.
  rewrite opt_component_other by assumption. now rewrite string_app_nil_r.
Qed.

Section DurationForm.

Variables lp lt lh lm ls : ascii.
Hypothesis HP : PyStr.eq_ci lp "P" = true.
Hypothesis HT : PyStr.eq_ci lt "T" = true.
Hypothesis HH : PyStr.eq_ci lh "H" = true.
Hypothesis HM : PyStr.eq_ci lm "M" = true.
Hypothesis HS : PyStr.eq_ci ls "S" = true.

Variables h mn s : option string.
Hypothesis Hh : digits_ok h = true.
Hypothesis Hmn : digits_ok mn = true.
Hypothesis Hs : digits_ok s = true.

(** On a string of the form [PT[nH][nM][nS]] the pattern captures exactly
    the components that are there. *)
Lemma DURATION_RE_match_form :
  DURATION_RE_match (iso_form lp lt lh lm ls h mn s) = Some (h, mn, s).
Proof using HP HT HH HM HS Hh Hmn Hs.
  assert (DM : PyStr.is_digit lm = false)
    by (apply (letter_not_digit lm "M"); simpl; tauto).
  assert (DS : PyStr.is_digit ls = false)
    by (apply (letter_not_digit ls "S"); simpl; tauto).
  pose proof (eq_ci_H_M lm HM) as HM'.
  pose proof (eq_ci_H_S ls HS) as HS'.
  pose proof (eq_ci_M_S ls HS) as HS''.
  unfold iso_form, DURATION_RE_match. rewrite HP, HT. simpl andb. cbv iota.
  destruct h as [hs|], mn as [ms|], s as [ss|];
    change (component None _) with EmptyString;
    cbn [String.append];
    repeat first
      [ rewrite opt_component_own by (simpl; tauto)
      | rewrite opt_component_own_end by (simpl; tauto)
      | rewrite opt_component_other by assumption
      | rewrite opt_component_other_end by assumption
      | rewrite opt_component_nil ];
    reflexivity.
Qed.

End DurationForm.

Lemma iso_form_no_space lp lt lh lm ls h mn s :
  PyStr.eq_ci lp "P" = true -> PyStr.eq_ci lt "T" = true ->
  PyStr.eq_ci lh "H" = true -> PyStr.eq_ci lm "M" = true ->
  PyStr.eq_ci ls "S" = true ->
  digits_ok h = true -> digits_ok mn = true -> digits_ok s = true ->
  all_chars (fun x => negb (PyStr.is_space x)) (iso_form lp lt lh lm ls h mn s)
  = true.
Proof.
  intros HP HT HH HM HS Hh Hmn Hs. unfold iso_form. simpl.
  rewrite (letter_not_space lp "P") by (simpl; tauto).
  rewrite (letter_not_space lt "T") by (simpl; tauto).
  rewrite !all_chars_app.
  rewrite (component_no_space h "H" lh) by (simpl; tauto).
  rewrite (component_no_space mn "M" lm) by (simpl; tauto).
  rewrite (component_no_space s "S" ls) by (simpl; tauto).
  reflexivity.
Qed.

Lemma int_group_short g : short_ok g = true -> int_group g = Ok (group_val g).
Proof. destruct g as [ds|]; cbn; [intros ->|]; reflexivity. Qed.

(** C2, as the code has it: on a string of the form [PT[nH][nM][nS]] (letters
    in either case, no component longer than the interpreter's limit for
    [int]) the result is [H:MM:SS] when the hours are there and not
    zero, and [MM:SS] when they are left out or zero; the minutes and the
    seconds fields have at least two characters. *)
Theorem parse_duration_clock lp lt lh lm ls h mn s :
  PyStr.eq_ci lp "P" = true -> PyStr.eq_ci lt "T" = true ->
  PyStr.eq_ci lh "H" = true -> PyStr.eq_ci lm "M" = true ->
  PyStr.eq_ci ls "S" = true ->
  digits_ok h = true -> digits_ok mn = true -> digits_ok s = true ->
  short_ok h = true -> short_ok mn = true -> short_ok s = true ->
  parse_duration (PStr (iso_form lp lt lh lm ls h mn s))
  = Ok (PStr (if N.eqb (group_val h) 0
              then clock_ms (group_val mn) (group_val s)
              else clock_hms (group_val h) (group_val mn) (group_val s)))
  /\ (2 <= String.length (PyStr.format_02d (group_val mn)))%nat
  /\ (2 <= String.length (PyStr.format_02d (group_val s)))%nat.
Proof.
  intros HP HT HH HM HS Hh Hmn Hs Sh Smn Ss.
  split; [|split; apply zfill_length].
  unfold parse_duration.
  change (truthy (PStr (iso_form lp lt lh lm ls h mn s))) with true.
  cbv beta iota delta [negb].
  rewrite strip_id by now apply iso_form_no_space.
  rewrite DURATION_RE_match_form by assumption.
  rewrite !int_group_short by assumption. cbn [bind].
  destruct (N.eqb (group_val h) 0); reflexivity.
Qed.

Lemma parse_duration_clock_witness :
  parse_duration (PStr "pt12H0m7S") = Ok (PStr "12:00:07")
  /\ parse_duration (PStr "PT00H2M") = Ok (PStr "02:00").
Proof.
  split.
  - exact (proj1 (parse_duration_clock "p" "t" "H" "m" "S"
             (Some "12") (Some "0") (Some "7")
             eq_refl eq_refl eq_refl eq_refl eq_refl eq_refl eq_refl eq_refl
             eq_refl eq_refl eq_refl)).
  - exact (proj1 (parse_duration_clock "P" "T" "H" "M" "S"
             (Some "00") (Some "2") None
             eq_refl eq_refl eq_refl eq_refl eq_refl eq_refl eq_refl eq_refl
             eq_refl eq_refl eq_refl)).
Defined.

(** C2 as stated fails: a zero hours component is there, and the result has
    no hours field. *)
Lemma parse_duration_zero_hours :
  iso_form "P" "T" "H" "M" "S" (Some "0") (Some "2") (Some "3") = "PT0H2M3S"
  /\ parse_duration (PStr "PT0H2M3S") = Ok (PStr "02:03")
  /\ parse_duration (PStr "PT0H2M3S") <> Ok (PStr "0:02:03").
Proof. split; [|split]; vm_compute; [reflexivity|reflexivity|discriminate]. Qed.

(** The pattern matches exactly the strings that begin with its two
    letters: every component is optional and the end is not anchored. *)
Lemma DURATION_RE_match_None s :
  DURATION_RE_match s = None <-> starts_with_PT s = false.
Proof.
  unfold DURATION_RE_match, starts_with_PT.
  destruct s as [|p [|t r]]; try tauto.
  destruct (PyStr.eq_ci p "P" && PyStr.eq_ci t "T"); [|tauto].
  destruct (opt_component "H" r) as [g1 r1].
  destruct (opt_component "M" r1) as [g2 r2].
  destruct (opt_component "S" r2) as [g3 r3].
  split; discriminate.
Qed.

(** C3, as the code has it: a non-empty string that, with the white space
    around it removed, does not begin with [PT] (in either case) is returned
    as it is. *)
Theorem parse_duration_pass_through s :
  s <> "" -> starts_with_PT (PyStr.strip s) = false ->
  parse_duration (PStr s) = Ok (PStr s).
Proof.
  intros Hne Hpt. unfold parse_duration.
  destruct s as [|c r]; [congruence|].
  change (truthy (PStr (String c r))) with true. cbv beta iota delta [negb].
  now rewrite (proj2 (DURATION_RE_match_None _) Hpt).
Qed.

Lemma parse_duration_pass_through_witness :
  parse_duration (PStr " 1h30 ") = Ok (PStr " 1h30 ").
Proof.
  apply (parse_duration_pass_through " 1h30 "); [discriminate|reflexivity].
Defined.

(** C3 as stated fails: ["PTxyz"] has no component, matches the pattern all
    the same and comes back as a clock text. *)
Lemma parse_duration_PTxyz :
  digits_ok None = true
  /\ parse_duration (PStr "PTxyz") = Ok (PStr "00:00")
  /\ parse_duration (PStr "PTxyz") <> Ok (PStr "PTxyz").
Proof. split; [|split]; vm_compute; [reflexivity|reflexivity|discriminate]. Qed.

(** ** Column extractors *)


Lemma py_get_dict m k default : exists v, py_get (PDict m) k default = Ok v.
Proof. simpl. destruct (dict_lookup m k); now eexists. Qed.

Lemma py_or_dict v :
  match v with PDict _ => True | _ => truthy v = false end ->
  exists m, py_or v (PDict []) = PDict m.
Proof.
  unfold py_or. destruct v; intros H; try (rewrite H; now eexists).
  destruct (truthy (PDict d)); now eexists.
Qed.

Lemma sub_get_total d sub field default :
  sub_ok d sub = true -> exists v, sub_get (PDict d) sub field default = Ok v.
Proof.
  unfold sub_ok, sub_get. intros H.
  assert (Hm : exists m, py_or (match dict_lookup d sub with
                                | Some v => v | None => PNone end)
                               (PDict []) = PDict m).
  { apply py_or_dict. destruct (dict_lookup d sub) as [v|]; [|reflexivity].
    destruct v; try exact I; now apply negb_true_iff in H. }
  destruct Hm as [m Hm]. unfold py_get at 1.
  destruct (dict_lookup d sub) as [v|]; unfold bind; rewrite Hm;
    apply py_get_dict.
Qed.

Lemma parse_duration_total v :
  match v with PStr s => duration_text_ok s = true | _ => truthy v = false end ->
  exists out, parse_duration v = Ok out.
Proof.
  unfold parse_duration, duration_text_ok. intros H.
  destruct (truthy v) eqn:Tv; cbn [negb]; [|now eexists].
  destruct v; try discriminate.
  destruct (DURATION_RE_match (PyStr.strip s)) as [[[h mn] sec]|];
    [|now eexists].
  apply andb_true_iff in H as [H Hsec]. apply andb_true_iff in H as [Hh Hmn].
  rewrite !int_group_short by assumption. cbn [bind]. now eexists.
Qed.

Lemma duration_raw_ok d :
  sub_ok d "contentDetails" = true -> duration_ok d = true ->
  exists raw, sub_get (PDict d) "contentDetails" "duration" (PStr "") = Ok raw
              /\ match raw with
                 | PStr s => duration_text_ok s = true
                 | _ => truthy raw = false
                 end.
Proof.
  unfold sub_ok, duration_ok, sub_get. unfold py_get at 1.
  destruct (dict_lookup d "contentDetails") as [v|]; unfold bind;
    [|intros _ _; eexists; split; reflexivity].
  destruct v; intros Hs Hd;
    try (apply negb_true_iff in Hs; unfold py_or; rewrite Hs;
         eexists; split; reflexivity).
  unfold py_or. destruct (truthy (PDict d0));
    [|eexists; split; reflexivity].
  cbn [py_get]. destruct (dict_lookup d0 "duration") as [x|];
    [|eexists; split; reflexivity].
  eexists; split; [reflexivity|].
  destruct x; try exact Hd; now apply negb_true_iff in Hd.
Qed.

Section Extractors.

Variable iso_date : string -> option string.

Lemma _col_publication_date_total d :
  sub_ok d "snippet" = true ->
  exists v, _col_publication_date iso_date (PDict d) = Ok v.
Proof.
  intros H. unfold _col_publication_date.
  destruct (sub_get_total d "snippet" "publishedAt" (PStr "") H) as [raw ->].
  unfold bind. destruct (negb (truthy raw)); [now eexists|].
  destruct raw; try (now eexists).
  destruct (iso_date _); now eexists.
Qed.

Lemma _col_duration_total d :
  sub_ok d "contentDetails" = true -> duration_ok d = true ->
  exists v, _col_duration (PDict d) = Ok v.
Proof.
  intros Hs Hd. unfold _col_duration.
  destruct (duration_raw_ok d Hs Hd) as [raw [-> Hraw]].
  unfold bind. now apply parse_duration_total.
Qed.

(** Every extractor of the registry returns on an item of the expected
    shape. *)
Lemma extractors_total item col_id label extract :
  item_ok item = true ->
  dict_lookup (COLUMN_EXTRACTORS iso_date) col_id = Some (label, extract) ->
  exists v, extract item = Ok v.
Proof.
  intros Hok Hreg. destruct item; try discriminate. simpl in Hok.
  repeat (apply andb_true_iff in Hok as [Hok ?]).
  unfold COLUMN_EXTRACTORS in Hreg. cbn [dict_lookup] in Hreg.
  repeat match type of Hreg with
         | (if ?b then _ else _) = _ =>
             destruct b;
             [injection Hreg as <- <-;
              first [ apply py_get_dict
                    | now apply sub_get_total
                    | now apply _col_publication_date_total
                    | now apply _col_duration_total ]|]
         end.
  discriminate.
Qed.


End Extractors.



(** ** Rows *)

(** Assigning to a key of a dict keeps the order of the keys: a new key
    goes to the end, a key that is there stays where it is. *)
Lemma keys_dict_set {V : Type} (d : list (string * V)) k v :
  keys (dict_set d k v) = add_label (keys d) k.
Proof.
  unfold add_label, keys.
  induction d as [|[k' v'] d IH]; simpl; [reflexivity|].
  destruct (String.eqb k' k); simpl; [reflexivity|].
  rewrite IH. now destruct (existsb _ (map fst d)).
Qed.

Section Rows.

Variable iso_date : string -> option string.

Lemma fill_row_keys item columns : forall r r',
  fill_row iso_date item columns r = Ok r' ->
  keys r' = fold_left add_label (known_labels iso_date columns) (keys r).
Proof.
  induction columns as [|col_id rest IH]; intros r r' H;
    cbn [fill_row known_labels] in *.
  - now injection H as <-.
  - destruct (dict_lookup (COLUMN_EXTRACTORS iso_date) col_id)
      as [[label extract]|]; [|now apply IH].
    destruct (extract item) as [v|e]; [|discriminate].
    cbn [bind fold_left] in *. apply IH in H.
    now rewrite keys_dict_set in H.
Qed.

Lemma fill_row_total item columns :
  item_ok item = true ->
  forall r, exists r', fill_row iso_date item columns r = Ok r'.
Proof.
  intros Hok. induction columns as [|col_id rest IH]; intros r;
    cbn [fill_row].
  - now eexists.
  - destruct (dict_lookup (COLUMN_EXTRACTORS iso_date) col_id)
      as [[label extract]|] eqn:Hreg; [|apply IH].
    destruct (extractors_total iso_date item col_id label extract Hok Hreg)
      as [v ->].
    cbn [bind]. apply IH.
Qed.

(** The loop adds one row per item, each with the labels of the selected
    columns. *)
Lemma rows_loop_spec items columns : forall acc rows,
  rows_loop iso_date items columns acc = Ok rows ->
  exists new,
    rows = acc ++ new /\ length new = length items
    /\ Forall (fun r => keys r = row_labels iso_date columns) new.
Proof.
  induction items as [|item rest IH]; intros acc rows H;
    cbn [rows_loop] in H.
  - injection H as <-. exists []. now rewrite app_nil_r.
  - destruct (fill_row iso_date item columns []) as [r|e] eqn:Hr;
      [|discriminate].
    cbn [bind] in H. apply IH in H as (new & -> & Hlen & Hall).
    exists (r :: new). rewrite <- app_assoc. cbn [app length].
    repeat split; [now rewrite Hlen|].
    constructor; [|exact Hall]. now apply fill_row_keys in Hr.
Qed.

Lemma rows_loop_total items columns :
  forallb item_ok items = true ->
  forall acc, exists rows, rows_loop iso_date items columns acc = Ok rows.
Proof.
  induction items as [|item rest IH]; intros Hok acc;
    cbn [rows_loop forallb] in *.
  - now eexists.
  - apply andb_true_iff in Hok as [Hi Hrest].
    destruct (fill_row_total item columns Hi []) as [r ->]. cbn [bind].
    now apply IH.
Qed.

Lemma items_to_rows_spec items columns rows :
  items_to_rows iso_date items columns = Ok rows ->
  length rows = length items
  /\ Forall (fun r => keys r = row_labels iso_date (columns_or_default columns))
            rows.
Proof.
  unfold items_to_rows. intros H.
  apply rows_loop_spec in H as (new & -> & Hlen & Hall). now split.
Qed.


(** C10: an empty list of columns selects the default columns, as no
    selection does; every row then has the eight default labels, there is
    one row per item, and the call returns on items of the expected
    shape. *)
Theorem items_to_rows_empty_columns items :
  items_to_rows iso_date items (Some []) = items_to_rows iso_date items None
  /\ (forall rows,
         items_to_rows iso_date items (Some []) = Ok rows ->
         length rows = length items
         /\ Forall (fun r => keys r = DEFAULT_LABELS) rows)
  /\ (forallb item_ok items = true ->
      exists rows, items_to_rows iso_date items (Some []) = Ok rows).
Proof.
  split; [reflexivity|]. split.
  - intros rows H. now apply items_to_rows_spec in H.
  - intros Hok. now apply rows_loop_total.
Qed.

End Rows.



Lemma items_to_rows_empty_columns_witness :
  exists rows,
    items_to_rows (fun _ => None) [PDict [("id", PStr "X")]] (Some []) = Ok rows
    /\ length rows = 1%nat
    /\ Forall (fun r => keys r = DEFAULT_LABELS) rows.
Proof.
  destruct (items_to_rows_empty_columns (fun _ => None) [PDict [("id", PStr "X")]])
    as (_ & Hspec & Htotal).
  destruct (Htotal eq_refl) as [rows Hrows].
  exists rows. split; [exact Hrows|]. exact (Hspec rows Hrows).
Defined.

(** ** Normalising identifiers *)

(** The pattern splits at runs of separators where the statement cuts at
    every separator: the first piece is the same, and the other pieces
    differ by empty ones only. *)
Lemma split_from_split_on s :
  (exists piece ps qs,
      split_from false s = piece :: ps /\ split_on is_sep s = piece :: qs
      /\ filter non_empty ps = filter non_empty qs)
  /\ filter non_empty (split_from true s) = filter non_empty (split_on is_sep s).
Proof.
  induction s as [|c r [(piece & ps & qs & Hf & Ho & Hrest) Hrun]].
  - split; [|reflexivity]. now exists EmptyString, [], [].
  - cbn [split_from split_on]. destruct (is_sep c).
    + split; [|now rewrite Hrun].
      exists EmptyString, (split_from true r), (split_on is_sep r).
      now repeat split.
    + rewrite Hf, Ho. split.
      * now exists (String c piece), ps, qs.
      * cbn [filter non_empty PyStr.is_empty negb]. now rewrite Hrest.
Qed.

Lemma re_split_tokens s : filter non_empty (re_split s) = spec_tokens s.
Proof.
  unfold re_split, spec_tokens.
  destruct (split_from_split_on s) as [(piece & ps & qs & -> & -> & H) _].
  cbn [filter]. rewrite H. reflexivity.
Qed.

Lemma split_from_no_sep s : forall in_run,
  Forall (fun p => no_sep p = true) (split_from in_run s).
Proof.
  induction s as [|c r IH]; intros in_run; cbn [split_from].
  - now repeat constructor.
  - destruct (is_sep c) eqn:Hc.
    + destruct in_run; [apply IH|]. constructor; [reflexivity|apply IH].
    + specialize (IH false). destruct (split_from false r) as [|p ps].
      * repeat constructor. unfold no_sep. simpl. now rewrite Hc.
      * inversion IH as [|? ? Hp Hps]; subst.
        constructor; [|exact Hps]. unfold no_sep in *. simpl. now rewrite Hc.
Qed.

Lemma no_sep_no_space s :
  no_sep s = true -> all_chars (fun c => negb (PyStr.is_space c)) s = true.
Proof.
  apply all_chars_impl. intros c Hc. unfold is_sep in Hc.
  apply negb_true_iff, orb_false_iff in Hc as [Hc _]. now rewrite Hc.
Qed.

(** The inner loop keeps the pieces that are not empty; [strip] changes
    nothing on a piece, which has no white space in it. *)
Lemma keep_parts_spec parts : forall out,
  Forall (fun p => no_sep p = true) parts ->
  keep_parts parts out = out ++ filter non_empty parts.
Proof.
  induction parts as [|p ps IH]; intros out H; cbn [keep_parts filter].
  - now rewrite app_nil_r.
  - inversion H as [|? ? Hp Hps]; subst.
    rewrite (strip_id p (no_sep_no_space p Hp)). unfold non_empty.
    destruct (PyStr.is_empty p); cbn [negb].
    + now apply IH.
    + rewrite (IH _ Hps). now rewrite <- app_assoc.
Qed.

Lemma normalize_loop_spec raw : forall out,
  normalize_loop raw out = out ++ spec_normalize raw.
Proof.
  induction raw as [|s rest IH]; intros out;
    cbn [normalize_loop spec_normalize flat_map].
  - now rewrite app_nil_r.
  - rewrite IH, keep_parts_spec by apply split_from_no_sep.
    rewrite re_split_tokens. now rewrite <- app_assoc.
Qed.

Lemma split_on_no_sep s : Forall (fun p => no_sep p = true) (split_on is_sep s).
Proof.
  induction s as [|c r IH]; cbn [split_on].
  - now repeat constructor.
  - destruct (is_sep c) eqn:Hc; [now constructor|].
    destruct (split_on is_sep r) as [|p ps].
    + repeat constructor. unfold no_sep. simpl. now rewrite Hc.
    + inversion IH as [|? ? Hp Hps]; subst.
      constructor; [|exact Hps]. unfold no_sep in *. simpl. now rewrite Hc.
Qed.

Lemma concat_cons x xs :
  String.concat "" (x :: xs) = (x ++ String.concat "" xs)%string.
Proof. destruct xs; simpl; [now rewrite string_app_nil_r|reflexivity]. Qed.

Lemma concat_split_on s :
  String.concat "" (split_on is_sep s) = drop_seps s.
Proof.
  induction s as [|c r IH]; [reflexivity|]. cbn [split_on drop_seps].
  destruct (is_sep c); rewrite <- IH.
  - now rewrite concat_cons.
  - destruct (split_on is_sep r) as [|p ps]; [reflexivity|].
    now rewrite !concat_cons.
Qed.

Lemma concat_filter_non_empty l :
  String.concat "" (filter non_empty l) = String.concat "" l.
Proof.
  induction l as [|p ps IH]; [reflexivity|].
  cbn [filter]. unfold non_empty at 1.
  destruct p as [|c p]; cbn [PyStr.is_empty negb].
  - now rewrite IH, concat_cons.
  - now rewrite !concat_cons, IH.
Qed.

Lemma concat_app l1 l2 :
  String.concat "" (l1 ++ l2)
  = (String.concat "" l1 ++ String.concat "" l2)%string.
Proof.
  induction l1 as [|x xs IH]; [reflexivity|].
  cbn [app]. now rewrite !concat_cons, IH, string_app_assoc.
Qed.

Lemma drop_seps_app a b :
  drop_seps (a ++ b) = (drop_seps a ++ drop_seps b)%string.
Proof.
  induction a as [|c a IH]; [reflexivity|]. simpl.
  destruct (is_sep c); [exact IH|]. simpl. now rewrite IH.
Qed.

Lemma spec_normalize_chars raw :
  String.concat "" (spec_normalize raw) = drop_seps (String.concat "" raw).
Proof.
  induction raw as [|s rest IH]; [reflexivity|].
  cbn [spec_normalize flat_map]. fold (spec_normalize rest).
  rewrite concat_app, concat_cons, drop_seps_app, IH. unfold spec_tokens.
  now rewrite concat_filter_non_empty, concat_split_on.
Qed.

Lemma split_on_token t : no_sep t = true -> split_on is_sep t = [t].
Proof.
  unfold no_sep. induction t as [|c t IH]; [reflexivity|]. simpl.
  intros H. apply andb_true_iff in H as [Hc Ht].
  apply negb_true_iff in Hc. now rewrite Hc, (IH Ht).
Qed.

Lemma spec_normalize_tokens ts :
  Forall (fun t => non_empty t = true /\ no_sep t = true) ts ->
  spec_normalize ts = ts.
Proof.
  induction 1 as [|t ts [Hne Hns] _ IH]; [reflexivity|].
  cbn [spec_normalize flat_map]. fold (spec_normalize ts).
  unfold spec_tokens. rewrite (split_on_token t Hns). cbn [filter].
  now rewrite Hne, IH.
Qed.

Lemma spec_normalize_Forall raw :
  Forall (fun t => non_empty t = true /\ no_sep t = true) (spec_normalize raw).
Proof.
  induction raw as [|s rest IH]; [constructor|].
  cbn [spec_normalize flat_map]. apply Forall_app. split; [|exact IH].
  unfold spec_tokens. apply Forall_forall. intros t Ht.
  apply filter_In in Ht as [Hin Hne]. split; [exact Hne|].
  exact (proj1 (Forall_forall _ _) (split_on_no_sep s) t Hin).
Qed.

(** C7: [normalize_ids] returns the tokens of its strings, one string after
    the other: the non-empty pieces between commas and white space.  Every
    token is non-empty and free of separators; the characters of the output
    are those of the input without the separators, in the same order; a list
    of tokens, with its repetitions, is returned as it is; and the two
    documented examples hold. *)
Theorem normalize_ids_tokens raw :
  normalize_ids raw = spec_normalize raw
  /\ Forall (fun t => non_empty t = true /\ no_sep t = true) (normalize_ids raw)
  /\ String.concat "" (normalize_ids raw) = drop_seps (String.concat "" raw)
  /\ (forall more, normalize_ids (raw ++ more)
                   = normalize_ids raw ++ normalize_ids more)
  /\ (Forall (fun t => non_empty t = true /\ no_sep t = true) raw ->
      normalize_ids raw = raw)
  /\ normalize_ids ["a, b"; " c  d"] = ["a"; "b"; "c"; "d"]
  /\ normalize_ids [] = [].
Proof.
  assert (E : forall l, normalize_ids l = spec_normalize l)
    by (intros l; unfold normalize_ids; now rewrite normalize_loop_spec).
  rewrite !E. split; [reflexivity|].
  split; [apply spec_normalize_Forall|].
  split; [apply spec_normalize_chars|].
  split; [intros more; rewrite !E; apply flat_map_app|].
  split; [apply spec_normalize_tokens|].
  split; vm_compute; reflexivity.
Qed.

Lemma normalize_ids_tokens_witness :
  normalize_ids ["dQw4w9WgXcQ"; "a"; "a"] = ["dQw4w9WgXcQ"; "a"; "a"]
  /\ normalize_ids [",x y,,z "; ""; "x"] = ["x"; "y"; "z"; "x"].
Proof.
  split.
  - apply (proj1 (proj2 (proj2 (proj2 (proj2
             (normalize_ids_tokens ["dQw4w9WgXcQ"; "a"; "a"])))))).
    repeat constructor.
  - rewrite (proj1 (normalize_ids_tokens [",x y,,z "; ""; "x"])).
    reflexivity.
Defined.

(** ** Batching *)

Lemma firstn_plus {A : Type} (a c : nat) : forall x : list A,
  firstn (a + c) x = firstn a x ++ firstn c (skipn a x).
Proof.
  induction a as [|a IH]; intros x; [reflexivity|].
  destruct x as [|y x]; cbn [Nat.add firstn skipn app].
  - now rewrite firstn_nil.
  - now rewrite IH.
Qed.

Lemma slice_step {A : Type} (l : list A) i b :
  slice l i (i + b) = firstn b (skipn i l).
Proof. unfold slice. now replace (i + b - i)%nat with b by lia. Qed.

(** The slices of width [b] that start at [j * b], [(j+1) * b], ... put
    together are one slice of the list. *)
Lemma concat_slices {A : Type} (l : list A) b m : forall j,
  concat (map (fun i => slice l i (i + b)) (map (fun k => k * b) (seq j m)))
  = firstn (m * b) (skipn (j * b) l).
Proof.
  induction m as [|m IH]; intros j; [reflexivity|].
  cbn [seq map concat]. rewrite IH, slice_step.
  replace (S m * b)%nat with (b + m * b)%nat by lia.
  rewrite firstn_plus, skipn_skipn.
  now replace (S j * b)%nat with (b + j * b)%nat by lia.
Qed.

Lemma range_step_count n b : (0 < b)%nat -> (n <= (n + b - 1) / b * b)%nat.
Proof.
  intros Hb.
  pose proof (Nat.div_mod_eq (n + b - 1) b) as E.
  pose proof (Nat.mod_upper_bound (n + b - 1) b) as U.
  nia.
Qed.

Lemma range_step_In n b i :
  (0 < b)%nat -> In i (range_step n b) -> (i < n)%nat.
Proof.
  intros Hb Hin. unfold range_step in Hin.
  apply in_map_iff in Hin as (k & <- & Hk). apply in_seq in Hk.
  pose proof (Nat.div_mod_eq (n + b - 1) b) as E.
  pose proof (Nat.mod_upper_bound (n + b - 1) b) as U.
  nia.
Qed.

Lemma chunks_concat video_ids : concat (chunks video_ids) = video_ids.
Proof.
  unfold chunks, range_step. rewrite concat_slices.
  cbn [Nat.mul skipn]. apply firstn_all2.
  apply range_step_count. unfold BATCH_SIZE. lia.
Qed.

Lemma chunks_sizes video_ids :
  Forall (fun chunk => (1 <= length chunk <= BATCH_SIZE)%nat) (chunks video_ids).
Proof.
  unfold chunks. apply Forall_forall. intros chunk Hin.
  apply in_map_iff in Hin as (i & <- & Hi).
  apply range_step_In in Hi; [|unfold BATCH_SIZE; lia].
  rewrite slice_step, length_firstn, length_skipn. unfold BATCH_SIZE. lia.
Qed.

Lemma chunks_120 video_ids :
  length video_ids = 120%nat -> map (@length string) (chunks video_ids) = [50; 50; 20]%nat.
Proof.
  intros H. unfold chunks. rewrite H.
  change (range_step 120 BATCH_SIZE) with [0; 50; 100]%nat.
  cbn [map]. rewrite !slice_step, !length_firstn, !length_skipn, H.
  reflexivity.
Qed.

(** ** Programs *)

Lemma pbind_Return_inv {A B : Type} (p : prog A) (k : A -> prog B) log b :
  pbind p k = (log, Return b) ->
  exists a l1 l2, p = (l1, Return a) /\ k a = (l2, Return b) /\ log = l1 ++ l2.
Proof.
  destruct p as [l1 [a|c|e]]; cbn [pbind]; try discriminate.
  destruct (k a) as [l2 o] eqn:Hk. intros H. injection H as <- ->.
  now exists a, l1, l2.
Qed.

Lemma pbind_Return {A B : Type} (k : A -> prog B) l1 a :
  pbind (l1, Return a) k = (l1 ++ fst (k a), snd (k a)).
Proof. cbn [pbind]. now destruct (k a). Qed.

Lemma exits_with_1_bind {A B : Type} (p : prog A) (k : A -> prog B) :
  exits_with_1 p -> (forall a, exits_with_1 (k a)) -> exits_with_1 (pbind p k).
Proof.
  destruct p as [l1 [a|c|e]]; intros Hp Hk; [|exact Hp|exact Hp].
  rewrite pbind_Return. exact (Hk a).
Qed.

Lemma requests_of_app l1 l2 :
  requests_of (l1 ++ l2) = requests_of l1 ++ requests_of l2.
Proof.
  induction l1 as [|[] l1 IH]; cbn [app requests_of]; try exact IH.
  - reflexivity.
  - now rewrite IH.
Qed.

Lemma stdout_of_app l1 l2 : stdout_of (l1 ++ l2) = stdout_of l1 ++ stdout_of l2.
Proof.
  induction l1 as [|[] l1 IH]; cbn [app stdout_of]; try exact IH.
  - reflexivity.
  - now rewrite IH.
Qed.

(** ** The batch fetcher *)

Section Fetch.

Variable urlopen : nat -> string -> http_result.
Variable json_loads : string -> string + pyval.
Variables (api_key : string) (video_ids : list string).

Let loop := fetch_loop urlopen json_loads api_key video_ids.
Let items_at := chunk_items urlopen json_loads.

(** One round of the loop whose request is answered with an items array:
    the request is logged, the items are appended, the loop goes on. *)
Lemma fetch_loop_hit i rest n acc new :
  items_at n (url_at api_key video_ids i) = Some new ->
  loop (i :: rest) n acc
  = (HttpGet (url_at api_key video_ids i) :: fst (loop rest (S n) (acc ++ new)),
     snd (loop rest (S n) (acc ++ new))).
Proof.
  subst loop items_at. unfold chunk_items, url_at. cbn [fetch_loop].
  destruct (urlopen n _) as [code body|reason| |data|code]; try discriminate.
  destruct (json_loads data) as [e|payload]; [discriminate|].
  destruct (py_get payload "items" PNone) as [got|e]; [|discriminate].
  cbn [bind emit lift pret pbind app].
  destruct (py_iter _) as [new'|e]; [|discriminate].
  intros H. injection H as ->.
  cbn [emit lift pret pbind app].
  now destruct (fetch_loop _ _ _ _ rest _ _).
Qed.

(** One round of the loop whose request is not answered with an items
    array: the request is logged and the run ends there, with status 1. *)
Lemma fetch_loop_miss i rest n acc :
  items_at n (url_at api_key video_ids i) = None ->
  exists log o,
    loop (i :: rest) n acc = (HttpGet (url_at api_key video_ids i) :: log, o)
    /\ requests_of log = [] /\ stdout_of log = []
    /\ (forall a, o <> Return a) /\ exit_status o = 1%Z.
Proof.
  subst loop items_at. unfold chunk_items, url_at. cbn [fetch_loop].
  destruct (urlopen n _) as [code body|reason| |data|code];
    [intros _; cbn [emit lift pret pbind sys_exit app];
     eexists; eexists; repeat split; discriminate .. | |
     intros _; cbn [emit lift pret pbind sys_exit app];
     eexists; eexists; repeat split; discriminate].
  destruct (json_loads data) as [e|payload];
    [intros _; cbn [emit lift pret pbind sys_exit app];
     eexists; eexists; repeat split; discriminate|].
  destruct (py_get payload "items" PNone) as [got|e];
    [|intros _; cbn [emit lift pret pbind sys_exit app];
      eexists; eexists; repeat split; discriminate].
  cbn [bind emit lift pret pbind app].
  destruct (py_iter _) as [new'|e]; [discriminate|].
  intros _; cbn [emit lift pret pbind sys_exit app].
  eexists; eexists; repeat split; discriminate.
Qed.

End Fetch.

Section FetchRun.

Variable urlopen : nat -> string -> http_result.
Variable json_loads : string -> string + pyval.
Variables (api_key : string) (video_ids : list string).

Let loop := fetch_loop urlopen json_loads api_key video_ids.
Let items_at := chunk_items urlopen json_loads.
Let collect := all_items_of urlopen json_loads.
Let url := url_at api_key video_ids.

(** The loop over the start indices [starts]: when every request is
    answered with an items array, all requests are made, in order, and the
    arrays are appended in that order; otherwise the run ends with status
    1 after the requests made so far, and prints nothing. *)
Lemma fetch_loop_spec starts : forall n acc,
  match collect n (map url starts) with
  | Some new =>
      loop starts n acc = (map HttpGet (map url starts), Return (acc ++ new))
  | None =>
      exists log o,
        loop starts n acc = (log, o)
        /\ (forall a, o <> Return a) /\ exit_status o = 1%Z
        /\ stdout_of log = []
        /\ exists m, requests_of log = firstn m (map url starts)
  end.
Proof.
  subst loop items_at collect url.
  induction starts as [|i rest IH]; intros n acc.
  - cbn [map all_items_of fetch_loop]. now rewrite app_nil_r.
  - cbn [map all_items_of].
    destruct (chunk_items urlopen json_loads n (url_at api_key video_ids i))
      as [new|] eqn:Hi.
    + rewrite (fetch_loop_hit _ _ _ _ i rest n acc new Hi).
      specialize (IH (S n) (acc ++ new)).
      destruct (all_items_of urlopen json_loads (S n) _) as [others|].
      * rewrite IH. cbn [fst snd map]. now rewrite app_assoc.
      * destruct IH as (log & o & -> & Hret & Hst & Hout & m & Hreq).
        exists (HttpGet (url_at api_key video_ids i) :: log), o.
        cbn [fst snd stdout_of requests_of]. repeat split; try assumption.
        exists (S m). cbn [firstn]. now rewrite Hreq.
    + destruct (fetch_loop_miss _ _ _ _ i rest n acc Hi)
        as (log & o & -> & Hreq & Hout & Hret & Hst).
      exists (HttpGet (url_at api_key video_ids i) :: log), o.
      cbn [stdout_of requests_of]. repeat split; try assumption.
      exists 1%nat. cbn [firstn]. now rewrite Hreq.
Qed.

Lemma chunk_urls_map :
  map url (range_step (length video_ids) BATCH_SIZE)
  = chunk_urls api_key video_ids.
Proof. subst url. unfold chunk_urls, chunks. now rewrite map_map. Qed.

Lemma requests_of_gets urls : requests_of (map HttpGet urls) = urls.
Proof. induction urls as [|u urls IH]; cbn; [reflexivity|now rewrite IH]. Qed.

Lemma stdout_of_gets urls : stdout_of (map HttpGet urls) = [].
Proof. induction urls as [|u urls IH]; cbn; [reflexivity|exact IH]. Qed.

(** [fetch_videos] returns exactly when every chunk's request is answered
    with an items array, and then it made the requests of the chunks, in
    order, and returns the arrays put together in that order. *)
Lemma fetch_videos_returns log items :
  fetch_videos urlopen json_loads api_key video_ids = (log, Return items)
  <-> log = map HttpGet (chunk_urls api_key video_ids)
      /\ collect 0%nat (chunk_urls api_key video_ids) = Some items.
Proof.
  unfold fetch_videos.
  pose proof (fetch_loop_spec (range_step (length video_ids) BATCH_SIZE)
                0%nat []) as H.
  rewrite chunk_urls_map in H. subst loop collect.
  destruct (all_items_of urlopen json_loads 0 _) as [new|].
  - rewrite H. cbn [app]. split.
    + intros E. injection E as <- <-. now split.
    + intros [-> E]. now injection E as <-.
  - destruct H as (l & o & -> & Hret & _). split.
    + intros E. injection E as _ E. now apply Hret in E.
    + intros [_ E]. discriminate.
Qed.

(** In every run the requests made are those of the first chunks, in
    order; a run that does not return ends with status 1 and prints
    nothing. *)
Lemma fetch_videos_any_run :
  let run := fetch_videos urlopen json_loads api_key video_ids in
  (exists m, requests_of (fst run) = firstn m (chunk_urls api_key video_ids))
  /\ stdout_of (fst run) = []
  /\ exits_with_1 run.
Proof.
  unfold fetch_videos.
  pose proof (fetch_loop_spec (range_step (length video_ids) BATCH_SIZE)
                0%nat []) as H.
  rewrite chunk_urls_map in H. subst loop collect.
  destruct (all_items_of urlopen json_loads 0 _) as [new|].
  - rewrite H. cbn [fst snd]. rewrite requests_of_gets, stdout_of_gets.
    repeat split.
    exists (length (chunk_urls api_key video_ids)). now rewrite firstn_all.
  - destruct H as (l & o & -> & Hret & Hst & Hout & Hreq).
    cbn [fst snd]. repeat split; try assumption.
    unfold exits_with_1. cbn [snd]. destruct o; [exact I|exact Hst|exact Hst].
Qed.

(** What [all_items_of] collects is the concatenation of the items arrays
    of the requests, each taken at its number. *)
Lemma all_items_of_concat urls : forall n items,
  collect n urls = Some items ->
  exists arrays,
    items = concat arrays /\ length arrays = length urls
    /\ forall k u, nth_error urls k = Some u ->
                   exists a, nth_error arrays k = Some a
                             /\ items_at (n + k)%nat u = Some a.
Proof.
  subst collect items_at.
  induction urls as [|u urls IH]; intros n items H; cbn [all_items_of] in H.
  - injection H as <-. exists []. repeat split. intros [|k] u' E; discriminate.
  - destruct (chunk_items urlopen json_loads n u) as [new|] eqn:Hu;
      [|discriminate].
    destruct (all_items_of urlopen json_loads (S n) urls) as [others|] eqn:Hr;
      [|discriminate].
    injection H as <-. destruct (IH _ _ Hr) as (arrays & -> & Hlen & Hnth).
    exists (new :: arrays). cbn [concat length]. repeat split.
    + now rewrite Hlen.
    + intros [|k] u' E; cbn [nth_error] in *.
      * injection E as <-. exists new. now rewrite Nat.add_0_r.
      * destruct (Hnth k u' E) as (a & Ha & Hi). exists a.
        now replace (n + S k)%nat with (S n + k)%nat by lia.
Qed.

End FetchRun.

(** The URL of a request: the endpoint and the three query parameters, the
    identifiers of the chunk joined by commas. *)
Lemma request_url_shape api_key chunk :
  request_url api_key chunk
  = (API_BASE ++ "?key=" ++ Url.quote_plus api_key
     ++ "&part=snippet%2CcontentDetails%2Cstatistics&id="
     ++ Url.quote_plus (PyStr.join "," chunk))%string.
Proof.
  unfold request_url, Url.urlencode. cbn [map fst snd PyStr.join].
  change (Url.quote_plus "key") with "key".
  change (Url.quote_plus "part") with "part".
  change (Url.quote_plus "id") with "id".
  change (Url.quote_plus PARTS) with "snippet%2CcontentDetails%2Cstatistics".
  unfold API_BASE. cbn [String.append].
  rewrite ?string_app_assoc. reflexivity.
Qed.

(** C4: the identifiers are cut into consecutive chunks of at most 50 that
    put together give the identifiers back (for 120 identifiers: chunks of
    50, 50 and 20); [fetch_videos] returns exactly when every chunk's
    request is answered with an items array, it has then made one request
    per chunk, in the order of the chunks, and returns the concatenation of
    the arrays in that order; in any run the requests made are those of the
    first chunks, in order; the URL of a request carries the key, the parts
    and the identifiers of its chunk joined by commas. *)
Theorem fetch_videos_batches
        (urlopen : nat -> string -> http_result)
        (json_loads : string -> string + pyval)
        (api_key : string) (video_ids : list string) :
  concat (chunks video_ids) = video_ids
  /\ Forall (fun chunk => (1 <= length chunk <= 50)%nat) (chunks video_ids)
  /\ (length video_ids = 120%nat ->
      map (@length string) (chunks video_ids) = [50; 50; 20]%nat)
  /\ (forall log items,
         fetch_videos urlopen json_loads api_key video_ids = (log, Return items)
         <-> log = map HttpGet (chunk_urls api_key video_ids)
             /\ all_items_of urlopen json_loads 0 (chunk_urls api_key video_ids)
                = Some items)
  /\ (forall items,
         all_items_of urlopen json_loads 0 (chunk_urls api_key video_ids)
         = Some items ->
         exists arrays,
           items = concat arrays /\ length arrays = length (chunks video_ids)
           /\ forall k u,
               nth_error (chunk_urls api_key video_ids) k = Some u ->
               exists a, nth_error arrays k = Some a
                         /\ chunk_items urlopen json_loads k u = Some a)
  /\ (exists m,
         requests_of (fst (fetch_videos urlopen json_loads api_key video_ids))
         = firstn m (chunk_urls api_key video_ids))
  /\ chunk_urls api_key video_ids
     = map (fun chunk =>
              API_BASE ++ "?key=" ++ Url.quote_plus api_key
              ++ "&part=snippet%2CcontentDetails%2Cstatistics&id="
              ++ Url.quote_plus (PyStr.join "," chunk))%string
           (chunks video_ids).
Proof.
  split; [apply chunks_concat|]. split; [apply chunks_sizes|].
  split; [apply chunks_120|]. split; [apply fetch_videos_returns|]. split.
  - intros items H.
    destruct (all_items_of_concat urlopen json_loads _ _ _ H)
      as (arrays & E & Hlen & Hnth).
    exists arrays. split; [exact E|]. split; [|exact Hnth].
    rewrite Hlen. unfold chunk_urls. apply length_map.
  - split; [apply (fetch_videos_any_run urlopen json_loads api_key video_ids)|].
    unfold chunk_urls. apply map_ext. intros chunk. apply request_url_shape.
Qed.

Lemma fetch_videos_batches_witness :
  let urlopen := fun (n : nat) (_ : string) =>
                   Response (PyStr.str_of_N (N.of_nat n)) in
  let json_loads := fun data : string =>
                      @inr string pyval (PDict [("items", PList [PStr data])]) in
  let video_ids := repeat "id" 120 in
  map (@length string) (chunks video_ids) = [50; 50; 20]%nat
  /\ fetch_videos urlopen json_loads "k" video_ids
     = (map HttpGet (chunk_urls "k" video_ids),
        Return [PStr "0"; PStr "1"; PStr "2"]).
Proof.
  intros urlopen json_loads video_ids.
  destruct (fetch_videos_batches urlopen json_loads "k" video_ids)
    as (_ & _ & Hsizes & Hrun & _).
  split; [exact (Hsizes eq_refl)|].
  apply (proj2 (Hrun _ _)). split; reflexivity.
Defined.

(** ** The stages of [main] *)

Lemma quiet_bind {A B : Type} (p : prog A) (k : A -> prog B) :
  stdout_of (fst p) = [] -> (forall a, quiet_unless_returns (k a)) ->
  quiet_unless_returns (pbind p k).
Proof.
  destruct p as [l1 [a|c|e]]; intros Hp Hk; [|exact Hp|exact Hp].
  rewrite pbind_Return. specialize (Hk a). unfold quiet_unless_returns in *.
  cbn [fst snd] in *. destruct (snd (k a)); [exact I| |];
    now rewrite stdout_of_app, Hp, Hk.
Qed.

Lemma lift_run {A : Type} (r : result A) :
  stdout_of (fst (lift r)) = [] /\ exits_with_1 (lift r).
Proof. destruct r; split; reflexivity. Qed.

Lemma lift_Return_inv {A : Type} (r : result A) log a :
  lift r = (log, Return a) -> r = Ok a /\ log = [].
Proof. destruct r; cbn; intros H; [now injection H as <- <-|discriminate]. Qed.

Lemma read_ids_run (inv : invocation) :
  stdout_of (fst (read_ids inv)) = [] /\ exits_with_1 (read_ids inv)
  /\ forall log ids, read_ids inv = (log, Return ids) ->
                     normalize_ids ids = requested_ids inv.
Proof.
  unfold read_ids, requested_ids.
  destruct (arg_video_ids inv) as [|v vs].
  - destruct (stdin_line inv) as [l|]; cbn.
    + repeat split. intros log ids H. now injection H as _ <-.
    + repeat split. discriminate.
  - repeat split. intros log ids H. now injection H as _ <-.
Qed.

Lemma get_api_key_run (inv : invocation) :
  get_api_key (environ_key inv)
  = if PyStr.is_empty (api_key_of inv)
    then ([Stderr "yt-extract: Set YOUTUBE_DATA_API_KEY in your environment."],
          SysExit 1%Z)
    else ([], Return (api_key_of inv)).
Proof.
  unfold get_api_key, api_key_of.
  now destruct (PyStr.is_empty _).
Qed.

Lemma report_missing_run video_ids found :
  exists log, report_missing video_ids found = (log, Return tt)
              /\ stdout_of log = [].
Proof.
  induction video_ids as [|vid rest (log & IH & Hq)]; cbn [report_missing].
  - now exists [].
  - rewrite IH. destruct (in_found vid found); cbn.
    + now exists log.
    + now eexists.
Qed.

Section MainRun.

Variable iso_date : string -> option string.
Variable urlopen : nat -> string -> http_result.
Variable json_loads : string -> string + pyval.
Variable tabulate : list row -> string -> string.

Let run := main iso_date urlopen json_loads tabulate.
Let fetch := fetch_videos urlopen json_loads.

(** The last step of [main], on the rows built. *)
Lemma main_render_run (inv : invocation) (rows : list row) :
  match rows with
  | [] => @sys_exit unit 1%Z
  | _ =>
      let tablefmt :=
        match arg_format inv with Markdown => "pipe" | Grid => "grid" end in
      let rows' :=
        if String.eqb tablefmt "pipe" then _escape_pipes_for_markdown rows
        else rows in
      emit (Stdout (tabulate rows' tablefmt))
  end
  = match rows with
    | [] => ([], SysExit 1%Z)
    | _ => ([Stdout (tabulate (shown_rows (arg_format inv) rows)
                              (tablefmt_of (arg_format inv)))], Return tt)
    end.
Proof. destruct rows; [reflexivity|]. now destruct (arg_format inv). Qed.

(** When [main] returns, it has fetched items for the identifiers asked
    for, built at least one row and printed the table of the rows, and
    nothing else, on standard output. *)
Lemma main_Return_inv (inv : invocation) log :
  run inv = (log, Return tt) ->
  exists items rows pre,
    requested_ids inv <> []
    /\ PyStr.is_empty (api_key_of inv) = false
    /\ snd (fetch (api_key_of inv) (requested_ids inv)) = Return items
    /\ items_to_rows iso_date items None = Ok rows
    /\ rows <> []
    /\ log = pre ++ [Stdout (tabulate (shown_rows (arg_format inv) rows)
                                      (tablefmt_of (arg_format inv)))]
    /\ stdout_of pre = [].
Proof.
  subst run fetch. unfold main. intros H.
  apply pbind_Return_inv in H as (ids0 & l1 & l2 & Hread & H & ->).
  destruct (read_ids_run inv) as (Q1 & _ & Hids).
  rewrite Hread in Q1. cbn [fst] in Q1.
  rewrite (Hids _ _ Hread) in H.
  destruct (requested_ids inv) as [|v vs] eqn:Ereq; [discriminate|].
  apply pbind_Return_inv in H as (key & l3 & l4 & Hkey & H & ->).
  rewrite get_api_key_run in Hkey.
  destruct (PyStr.is_empty (api_key_of inv)) eqn:Ekey; [discriminate|].
  injection Hkey as <- <-.
  apply pbind_Return_inv in H as (items & l5 & l6 & Hfetch & H & ->).
  destruct (fetch_videos_any_run urlopen json_loads (api_key_of inv) (v :: vs))
    as (_ & Q5 & _).
  rewrite Hfetch in Q5. cbn [fst] in Q5.
  apply pbind_Return_inv in H as (found & l7 & l8 & Hfound & H & ->).
  apply lift_Return_inv in Hfound as [Hfound ->].
  apply pbind_Return_inv in H as ([] & l9 & l10 & Hmiss & H & ->).
  destruct (report_missing_run (v :: vs) found) as (l9' & Hmiss' & Q9).
  rewrite Hmiss in Hmiss'. injection Hmiss' as <-.
  apply pbind_Return_inv in H as (rows & l11 & l12 & Hrows & H & ->).
  apply lift_Return_inv in Hrows as [Hrows ->].
  rewrite main_render_run in H.
  destruct rows as [|r rs]; [discriminate|]. injection H as <-.
  exists items, (r :: rs), (l1 ++ l5 ++ l9).
  split; [discriminate|]. split; [reflexivity|].
  split; [now rewrite Hfetch|]. split; [exact Hrows|].
  split; [discriminate|]. split.
  - cbn [app]. now rewrite <- !app_assoc.
  - now rewrite !stdout_of_app, Q1, Q5, Q9.
Qed.

(** A run of [main] that does not return ends with status 1 and has
    printed nothing on standard output. *)
Lemma main_no_Return (inv : invocation) :
  exits_with_1 (run inv) /\ quiet_unless_returns (run inv).
Proof.
  subst run fetch. unfold main.
  destruct (read_ids_run inv) as (Q1 & X1 & _).
  split.
  - apply exits_with_1_bind; [exact X1|]. intros ids0.
    destruct (normalize_ids ids0) as [|v vs]; [reflexivity|].
    apply exits_with_1_bind;
      [rewrite get_api_key_run; now destruct (PyStr.is_empty _)|].
    intros key. apply exits_with_1_bind;
      [apply (fetch_videos_any_run urlopen json_loads key (v :: vs))|].
    intros items. apply exits_with_1_bind; [apply lift_run|].
    intros found. apply exits_with_1_bind.
    { destruct (report_missing_run (v :: vs) found) as (l & -> & _).
      exact I. }
    intros _. apply exits_with_1_bind; [apply lift_run|].
    intros rows. rewrite main_render_run. now destruct rows.
  - apply quiet_bind; [exact Q1|]. intros ids0.
    destruct (normalize_ids ids0) as [|v vs]; [reflexivity|].
    apply quiet_bind;
      [rewrite get_api_key_run; now destruct (PyStr.is_empty _)|].
    intros key. apply quiet_bind;
      [apply (fetch_videos_any_run urlopen json_loads key (v :: vs))|].
    intros items. apply quiet_bind; [apply lift_run|].
    intros found. apply quiet_bind.
    { destruct (report_missing_run (v :: vs) found) as (l & -> & Hq).
      exact Hq. }
    intros _. apply quiet_bind; [apply lift_run|].
    intros rows. rewrite main_render_run. now destruct rows.
Qed.

End MainRun.

Lemma status_cases {A : Type} (p : prog A) :
  exits_with_1 p ->
  (exists a, snd p = Return a /\ exit_status (snd p) = 0%Z)
  \/ ((forall a, snd p <> Return a) /\ exit_status (snd p) = 1%Z).
Proof.
  unfold exits_with_1. destruct (snd p) as [a|c|e]; intros H.
  - left. now exists a.
  - right. split; [discriminate|exact H].
  - right. split; [discriminate|exact H].
Qed.

Lemma chunk_items_Some_inv urlopen json_loads n u a :
  chunk_items urlopen json_loads n u = Some a ->
  exists data payload, urlopen n u = Response data
                       /\ json_loads data = inr payload.
Proof.
  unfold chunk_items.
  destruct (urlopen n u) as [code body|reason| |data|code]; try discriminate.
  destruct (json_loads data) as [e|payload] eqn:Ej; [discriminate|].
  intros _. now exists data, payload.
Qed.

Section ExitStatus.

Variable iso_date : string -> option string.
Variable urlopen : nat -> string -> http_result.
Variable json_loads : string -> string + pyval.
Variable tabulate : list row -> string -> string.
Variable inv : invocation.

Let run := main iso_date urlopen json_loads tabulate inv.
Let ids := requested_ids inv.
Let key := api_key_of inv.
Let fetched := fetch_videos urlopen json_loads key ids.

(** The process ends with status 0 exactly when [main] returns. *)
Lemma main_status :
  (exists log, run = (log, Return tt) /\ exit_status (snd run) = 0%Z)
  \/ ((forall a, snd run <> Return a) /\ exit_status (snd run) = 1%Z
      /\ stdout_of (fst run) = []).
Proof.
  destruct (main_no_Return iso_date urlopen json_loads tabulate inv)
    as [X Q]. fold run in X, Q.
  destruct (status_cases run X) as [([] & E & S)|[N S]].
  - left. exists (fst run). split; [|exact S].
    rewrite <- E. apply surjective_pairing.
  - right. repeat split; [exact N|exact S|].
    unfold quiet_unless_returns in Q.
    destruct (snd run) as [a|c|e]; [now elim (N a)|exact Q|exact Q].
Qed.

(** A run that ends with status 0 went through every stage. *)
Lemma main_status_0_inv :
  exit_status (snd run) = 0%Z ->
  exists items rows,
    ids <> [] /\ PyStr.is_empty key = false
    /\ snd fetched = Return items
    /\ items_to_rows iso_date items None = Ok rows
    /\ rows <> []
    /\ stdout_of (fst run)
       = [tabulate (shown_rows (arg_format inv) rows)
                   (tablefmt_of (arg_format inv))].
Proof.
  intros S0. destruct main_status as [(log & E & _)|(_ & S1 & _)];
    [|rewrite S1 in S0; discriminate].
  destruct (main_Return_inv iso_date urlopen json_loads tabulate inv log E)
    as (items & rows & pre & H1 & H2 & H3 & H4 & H5 & -> & Hq).
  exists items, rows. repeat split; try assumption.
  fold run in E. rewrite E. cbn [fst].
  now rewrite stdout_of_app, Hq.
Qed.

(** A request of the run that is not answered with a body that decodes
    keeps [main] from returning. *)
Lemma failed_request_status k u :
  nth_error (chunk_urls key ids) k = Some u ->
  chunk_items urlopen json_loads k u = None ->
  exit_status (snd run) = 1%Z.
Proof.
  intros Hk Hnone. destruct main_status as [(log & E & S0)|(_ & S1 & _)];
    [|exact S1].
  destruct (main_status_0_inv S0) as (items & rows & _ & _ & Hf & _).
  subst fetched. destruct (fetch_videos _ _ key ids) as [flog fo] eqn:Ef.
  cbn [snd] in Hf. subst fo.
  apply fetch_videos_returns in Ef as [_ Hall].
  destruct (all_items_of_concat _ _ _ _ _ Hall) as (arrays & _ & _ & Hnth).
  destruct (Hnth k u Hk) as (a & _ & Ha). cbn [Nat.add] in Ha.
  rewrite Hnone in Ha. discriminate.
Qed.

End ExitStatus.

(** The exit status of [main], the part of the program that follows
    [parse_args]: it is 0 or 1; it is 0 exactly when a table was printed,
    and then the table is that of at least one row built from the items
    fetched; it is 1 when the API key is missing or blank, when a request
    of the run meets an HTTP error or a transport error, when the body of
    an answer does not decode, when no identifier is left after
    normalisation, and when no item came back. *)
Theorem main_exit_status
        (iso_date : string -> option string)
        (urlopen : nat -> string -> http_result)
        (json_loads : string -> string + pyval)
        (tabulate : list row -> string -> string)
        (inv : invocation) :
  let run := main iso_date urlopen json_loads tabulate inv in
  let ids := requested_ids inv in
  let key := api_key_of inv in
  (exit_status (snd run) = 0%Z \/ exit_status (snd run) = 1%Z)
  /\ (exit_status (snd run) = 0%Z <-> stdout_of (fst run) <> [])
  /\ (exit_status (snd run) = 0%Z ->
      exists items rows,
        snd (fetch_videos urlopen json_loads key ids) = Return items
        /\ items_to_rows iso_date items None = Ok rows
        /\ (1 <= length rows)%nat
        /\ stdout_of (fst run)
           = [tabulate (shown_rows (arg_format inv) rows)
                       (tablefmt_of (arg_format inv))])
  /\ (key = "" -> exit_status (snd run) = 1%Z)
  /\ (forall k u code body,
         nth_error (chunk_urls key ids) k = Some u ->
         urlopen k u = HTTPError code body -> exit_status (snd run) = 1%Z)
  /\ (forall k u reason,
         nth_error (chunk_urls key ids) k = Some u ->
         urlopen k u = URLError reason -> exit_status (snd run) = 1%Z)
  /\ (forall k u data e,
         nth_error (chunk_urls key ids) k = Some u ->
         urlopen k u = Response data -> json_loads data = inl e ->
         exit_status (snd run) = 1%Z)
  /\ (ids = [] -> exit_status (snd run) = 1%Z)
  /\ (snd (fetch_videos urlopen json_loads key ids) = Return [] ->
      exit_status (snd run) = 1%Z).
Proof.
  intros run ids key.
  pose proof (main_status iso_date urlopen json_loads tabulate inv) as St.
  pose proof (main_status_0_inv iso_date urlopen json_loads tabulate inv) as In0.
  pose proof (failed_request_status iso_date urlopen json_loads tabulate inv)
    as Fail.
  fold run in St, In0. fold ids in In0, Fail. fold key in In0, Fail.
  fold run in Fail.
  assert (Not0 : exit_status (snd run) <> 0%Z -> exit_status (snd run) = 1%Z).
  { intros N. destruct St as [(log & _ & S0)|(_ & S1 & _)];
      [now elim N|exact S1]. }
  split; [destruct St as [(log & _ & S0)|(_ & S1 & _)]; tauto|].
  split.
  { split.
    - intros S0. destruct (In0 S0) as (items & rows & _ & _ & _ & _ & _ & E).
      rewrite E. discriminate.
    - intros Hout. destruct St as [(log & _ & S0)|(_ & _ & Q)];
        [exact S0|now elim Hout]. }
  split.
  { intros S0. destruct (In0 S0) as (items & rows & _ & _ & Hf & Hr & Hne & E).
    exists items, rows. repeat split; try assumption.
    destruct rows; [now elim Hne|cbn; lia]. }
  split.
  { intros Hkey. apply Not0. intros S0.
    destruct (In0 S0) as (items & rows & _ & Hk & _).
    rewrite Hkey in Hk. discriminate. }
  split.
  { intros k u code body Hk Hu. apply (Fail k u Hk).
    unfold chunk_items. now rewrite Hu. }
  split.
  { intros k u reason Hk Hu. apply (Fail k u Hk).
    unfold chunk_items. now rewrite Hu. }
  split.
  { intros k u data e Hk Hu He. apply (Fail k u Hk).
    unfold chunk_items. now rewrite Hu, He. }
  split.
  { intros Hids. apply Not0. intros S0.
    destruct (In0 S0) as (items & rows & Hne & _). now elim Hne. }
  intros Hf. apply Not0. intros S0.
  destruct (In0 S0) as (items & rows & _ & _ & Hf' & Hr & Hne & _).
  rewrite Hf in Hf'. injection Hf' as <-.
  cbn in Hr. injection Hr as <-. now elim Hne.
Qed.

Lemma main_exit_status_witness :
  let iso_date := fun _ : string => @None string in
  let json_loads := fun data : string =>
    if String.eqb data "" then @inl string pyval "Expecting value"
    else inr (PDict [("items", PList [PDict [("id", PStr data)]])]) in
  let tabulate := fun (rows : list row) (fmt : string) => fmt in
  let online := fun (_ : nat) (_ : string) => Response "X" in
  let denied := fun (_ : nat) (_ : string) => HTTPError 403 "quota" in
  let empty := fun (_ : nat) (_ : string) => Response "" in
  let call := fun key =>
    {| arg_video_ids := ["X, Z"]; arg_format := Markdown;
       stdin_line := None; environ_key := key |} in
  exit_status (snd (main iso_date online json_loads tabulate (call (Some "k"))))
  = 0%Z
  /\ exit_status (snd (main iso_date online json_loads tabulate (call (Some "  "))))
     = 1%Z
  /\ exit_status (snd (main iso_date denied json_loads tabulate (call (Some "k"))))
     = 1%Z
  /\ exit_status (snd (main iso_date empty json_loads tabulate (call (Some "k"))))
     = 1%Z.
Proof.
  intros iso_date json_loads tabulate online denied empty call.
  split; [|split; [|split]].
  - apply (proj2 (proj1 (proj2
      (main_exit_status iso_date online json_loads tabulate (call (Some "k")))))).
    vm_compute. discriminate.
  - apply (proj1 (proj2 (proj2 (proj2
      (main_exit_status iso_date online json_loads tabulate (call (Some "  "))))))).
    reflexivity.
  - apply (proj1 (proj2 (proj2 (proj2 (proj2
      (main_exit_status iso_date denied json_loads tabulate (call (Some "k")))))))
      0%nat (request_url "k" ["X"; "Z"]) 403%N "quota"); reflexivity.
  - apply (proj1 (proj2 (proj2 (proj2 (proj2 (proj2 (proj2
      (main_exit_status iso_date empty json_loads tabulate (call (Some "k")))))))))
      0%nat (request_url "k" ["X"; "Z"]) "" "Expecting value"); reflexivity.
Defined.

(** ** Escaping pipes *)

Lemma cell_escaped (r : row) label :
  cell (map (fun kv => (fst kv, escape_cell (snd kv))) r) label
  = option_map escape_cell (cell r label).
Proof.
  unfold cell. induction r as [|[k v] r IH]; cbn [map dict_lookup fst snd];
    [reflexivity|].
  destruct (String.eqb k label); [reflexivity|exact IH].
Qed.

Lemma keys_escaped (r : row) :
  keys (map (fun kv => (fst kv, escape_cell (snd kv))) r) = keys r.
Proof. unfold keys. rewrite map_map. reflexivity. Qed.

Lemma escaped_rows rows :
  Forall2 (fun r r' : row =>
             keys r' = keys r
             /\ forall label, cell r' label = option_map escape_cell (cell r label))
          rows (_escape_pipes_for_markdown rows).
Proof.
  induction rows as [|r rows IH]; cbn [_escape_pipes_for_markdown map];
    constructor; [|exact IH].
  split; [apply keys_escaped|apply cell_escaped].
Qed.

(** Replacing the pipes of a string, character by character. *)
Lemma replace_pipe_chars s :
  PyStr.replace_char "|" "\|" s
  = String.concat ""
      (map (fun c => if Ascii.eqb c "|" then "\|" else String c "")
           (list_ascii_of_string s)).
Proof.
  induction s as [|c s IH]; [reflexivity|].
  cbn [PyStr.replace_char list_ascii_of_string map].
  rewrite concat_cons, <- IH. now destruct (Ascii.eqb c "|").
Qed.

(** C8: when [main] prints, the table is that of the rows built from the
    items fetched, escaped for the Markdown format and as they are for the
    grid format.  Escaping keeps the labels of a row and their order,
    changes every string cell by putting a backslash before each pipe
    (["a|b"] becomes ["a\|b"]), and leaves any other cell as it is. *)
Theorem markdown_escapes_pipes
        (iso_date : string -> option string)
        (urlopen : nat -> string -> http_result)
        (json_loads : string -> string + pyval)
        (tabulate : list row -> string -> string)
        (inv : invocation) :
  (forall log,
      main iso_date urlopen json_loads tabulate inv = (log, Return tt) ->
      exists items rows,
        snd (fetch_videos urlopen json_loads (api_key_of inv) (requested_ids inv))
        = Return items
        /\ items_to_rows iso_date items None = Ok rows
        /\ stdout_of log
           = [match arg_format inv with
              | Markdown => tabulate (_escape_pipes_for_markdown rows) "pipe"
              | Grid => tabulate rows "grid"
              end])
  /\ (forall rows,
         Forall2 (fun r r' : row =>
                    keys r' = keys r
                    /\ forall label,
                        cell r' label = option_map escape_cell (cell r label))
                 rows (_escape_pipes_for_markdown rows))
  /\ (forall s,
         escape_cell (PStr s) = PStr (PyStr.replace_char "|" "\|" s)
         /\ PyStr.replace_char "|" "\|" s
            = String.concat ""
                (map (fun c => if Ascii.eqb c "|" then "\|" else String c "")
                     (list_ascii_of_string s)))
  /\ (forall v, match v with PStr _ => True | _ => escape_cell v = v end)
  /\ escape_cell (PStr "a|b") = PStr "a\|b".
Proof.
  split.
  { intros log H.
    destruct (main_Return_inv iso_date urlopen json_loads tabulate inv log H)
      as (items & rows & pre & _ & _ & Hf & Hr & _ & -> & Hq).
    exists items, rows. split; [exact Hf|]. split; [exact Hr|].
    rewrite stdout_of_app, Hq. now destruct (arg_format inv). }
  split; [apply escaped_rows|].
  split; [intros s; split; [reflexivity|apply replace_pipe_chars]|].
  split; [now intros []|reflexivity].
Qed.

Lemma markdown_escapes_pipes_witness :
  let iso_date := fun _ : string => @None string in
  let urlopen := fun (_ : nat) (_ : string) => Response "a|b" in
  let json_loads := fun data : string =>
    @inr string pyval
      (PDict [("items", PList [PDict [("snippet", PDict [("title", PStr data)])]])]) in
  let tabulate := fun (rows : list row) (fmt : string) =>
    String.concat ";"
      (map (fun r => match cell r "title" with Some (PStr s) => s | _ => "" end)
           rows) in
  let call := fun f =>
    {| arg_video_ids := ["X"]; arg_format := f;
       stdin_line := None; environ_key := Some "k" |} in
  stdout_of (fst (main iso_date urlopen json_loads tabulate (call Markdown)))
  = ["a\|b"]
  /\ stdout_of (fst (main iso_date urlopen json_loads tabulate (call Grid)))
     = ["a|b"].
Proof.
  intros iso_date urlopen json_loads tabulate call.
  assert (R : forall f,
             exists log, main iso_date urlopen json_loads tabulate (call f)
                         = (log, Return tt))
    by (intros []; eexists; vm_compute; reflexivity).
  split.
  - destruct (R Markdown) as [log E]. rewrite E. cbn [fst].
    destruct (proj1 (markdown_escapes_pipes
                       iso_date urlopen json_loads tabulate (call Markdown))
                    log E) as (items & rows & Hf & Hr & ->).
    vm_compute in Hf. injection Hf as <-.
    vm_compute in Hr. injection Hr as <-. reflexivity.
  - destruct (R Grid) as [log E]. rewrite E. cbn [fst].
    destruct (proj1 (markdown_escapes_pipes
                       iso_date urlopen json_loads tabulate (call Grid))
                    log E) as (items & rows & Hf & Hr & ->).
    vm_compute in Hf. injection Hf as <-.
    vm_compute in Hr. injection Hr as <-. reflexivity.
Defined.

(** * Further properties *)

(** ** Stripping and the API key *)

Lemma lstrip_empty_iff s : PyStr.lstrip s = "" <-> blank s = true.
Proof.
  unfold blank. induction s as [|c r IH]; cbn [PyStr.lstrip all_chars].
  - tauto.
  - destruct (PyStr.is_space c); cbn [andb]; [exact IH|].
    split; discriminate.
Qed.

Lemma lstrip_starts_clean s : starts_clean (PyStr.lstrip s) = true.
Proof.
  induction s as [|c r IH]; cbn [PyStr.lstrip]; [reflexivity|].
  destruct (PyStr.is_space c) eqn:Hc; [exact IH|].
  cbn [starts_clean]. now rewrite Hc.
Qed.

Lemma rstrip_empty_iff s : PyStr.rstrip s = "" <-> blank s = true.
Proof.
  unfold blank. induction s as [|c r IH]; cbn [PyStr.rstrip all_chars].
  - tauto.
  - destruct (PyStr.rstrip r) as [|x y].
    + rewrite (proj1 IH eq_refl), andb_true_r.
      destruct (PyStr.is_space c); split; (reflexivity || discriminate).
    + split; [discriminate|]. intros H. apply andb_true_iff in H as [_ H].
      apply IH in H. discriminate.
Qed.

Lemma rstrip_ends_clean s : ends_clean (PyStr.rstrip s) = true.
Proof.
  induction s as [|c r IH]; cbn [PyStr.rstrip]; [reflexivity|].
  destruct (PyStr.rstrip r) as [|x y].
  - destruct (PyStr.is_space c) eqn:Hc; [reflexivity|].
    cbn [ends_clean]. now rewrite Hc.
  - exact IH.
Qed.

Lemma rstrip_starts_clean s :
  starts_clean s = true -> starts_clean (PyStr.rstrip s) = true.
Proof.
  destruct s as [|c r]; [reflexivity|]. cbn [starts_clean PyStr.rstrip].
  intros Hc. apply negb_true_iff in Hc.
  destruct (PyStr.rstrip r); rewrite ?Hc; cbn [starts_clean]; now rewrite Hc.
Qed.

Lemma lstrip_clean_id s : starts_clean s = true -> PyStr.lstrip s = s.
Proof.
  destruct s as [|c r]; [reflexivity|]. cbn [starts_clean PyStr.lstrip].
  intros Hc. apply negb_true_iff in Hc. now rewrite Hc.
Qed.

Lemma rstrip_clean_id s : ends_clean s = true -> PyStr.rstrip s = s.
Proof.
  induction s as [|c r IH]; [reflexivity|]. cbn [ends_clean PyStr.rstrip].
  destruct r as [|x y].
  - intros Hc. apply negb_true_iff in Hc. cbn [PyStr.rstrip]. now rewrite Hc.
  - intros H. now rewrite (IH H).
Qed.

Lemma blank_lstrip s : blank (PyStr.lstrip s) = blank s.
Proof.
  unfold blank. induction s as [|c r IH]; cbn [PyStr.lstrip all_chars];
    [reflexivity|].
  destruct (PyStr.is_space c) eqn:Hc; [exact IH|].
  cbn [all_chars]. now rewrite Hc.
Qed.

Lemma strip_empty_iff s : PyStr.strip s = "" <-> blank s = true.
Proof.
  unfold PyStr.strip. rewrite rstrip_empty_iff. now rewrite blank_lstrip.
Qed.

Lemma strip_clean s :
  starts_clean (PyStr.strip s) = true /\ ends_clean (PyStr.strip s) = true.
Proof.
  unfold PyStr.strip. split.
  - apply rstrip_starts_clean, lstrip_starts_clean.
  - apply rstrip_ends_clean.
Qed.

Lemma strip_strip s : PyStr.strip (PyStr.strip s) = PyStr.strip s.
Proof.
  destruct (strip_clean s) as [Hs He]. unfold PyStr.strip at 1.
  rewrite (lstrip_clean_id _ Hs). now apply rstrip_clean_id.
Qed.

Lemma is_empty_true s : PyStr.is_empty s = true <-> s = "".
Proof. destruct s; split; (reflexivity || discriminate). Qed.

(** X1: [get_api_key] ends the program with status 1, after one line on
    standard error, exactly when the variable is unset or holds white space
    only; otherwise it returns the value without the white space around
    it, which is then not empty, has no white space at either end, and is
    left as it is by a further [strip]. *)
Theorem get_api_key_blank_or_stripped (environ : option string) :
  let value := match environ with Some v => v | None => "" end in
  (blank value = true ->
   get_api_key environ
   = ([Stderr "yt-extract: Set YOUTUBE_DATA_API_KEY in your environment."],
      SysExit 1%Z))
  /\ (blank value = false ->
      get_api_key environ = ([], Return (PyStr.strip value))
      /\ PyStr.strip value <> ""
      /\ starts_clean (PyStr.strip value) = true
      /\ ends_clean (PyStr.strip value) = true
      /\ PyStr.strip (PyStr.strip value) = PyStr.strip value).
Proof.
  intros value. unfold get_api_key. fold value. split; intros Hb.
  - now rewrite (proj2 (strip_empty_iff value) Hb).
  - assert (Hne : PyStr.strip value <> "").
    { intros E. apply strip_empty_iff in E. congruence. }
    destruct (PyStr.is_empty (PyStr.strip value)) eqn:He.
    + apply is_empty_true in He. contradiction.
    + repeat split; try apply strip_clean; [exact Hne|apply strip_strip].
Qed.

Lemma get_api_key_blank_or_stripped_witness :
  get_api_key (Some "  AIza key	 ") = ([], Return "AIza key")
  /\ snd (get_api_key (Some "   ")) = SysExit 1%Z
  /\ snd (get_api_key None) = SysExit 1%Z.
Proof.
  split; [|split].
  - exact (proj1 (proj2 (get_api_key_blank_or_stripped (Some "  AIza key	 "))
                        eq_refl)).
  - now rewrite (proj1 (get_api_key_blank_or_stripped (Some "   ")) eq_refl).
  - now rewrite (proj1 (get_api_key_blank_or_stripped None) eq_refl).
Defined.

(** ** URL encoding *)

Lemma quote_char_ok c : all_chars url_char_ok (Url.quote_char c) = true.
Proof. by_cases_on_char c. Qed.

Lemma always_safe_ok c : Url.always_safe c = true -> url_char_ok c = true.
Proof. intros H. unfold url_char_ok. now rewrite H. Qed.

Lemma quote_plus_ok s : all_chars url_char_ok (Url.quote_plus s) = true.
Proof.
  induction s as [|c r IH]; [reflexivity|]. cbn [Url.quote_plus].
  destruct (Url.always_safe c) eqn:Hs.
  - cbn [all_chars]. now rewrite (always_safe_ok c Hs), IH.
  - destruct (Ascii.eqb c " ").
    + cbn [all_chars]. now rewrite IH.
    + now rewrite all_chars_app, quote_char_ok, IH.
Qed.

Lemma count_char_app c a b :
  count_char c (a ++ b) = (count_char c a + count_char c b)%nat.
Proof.
  induction a as [|x a IH]; [reflexivity|]. cbn [String.append count_char].
  rewrite IH. lia.
Qed.

Lemma count_char_none c s :
  all_chars (fun x => negb (Ascii.eqb x c)) s = true -> count_char c s = 0%nat.
Proof.
  induction s as [|x s IH]; [reflexivity|]. cbn [all_chars count_char].
  intros H. apply andb_true_iff in H as [Hx Hs].
  apply negb_true_iff in Hx. now rewrite Hx, (IH Hs).
Qed.

Lemma url_char_ok_not c x :
  url_char_ok c = false -> url_char_ok x = true -> negb (Ascii.eqb x c) = true.
Proof.
  intros Hc Hx. apply negb_true_iff. destruct (Ascii.eqb_spec x c); [|reflexivity].
  subst x. congruence.
Qed.

Lemma count_char_quote_plus c s :
  url_char_ok c = false -> count_char c (Url.quote_plus s) = 0%nat.
Proof.
  intros Hc. apply count_char_none.
  apply (all_chars_impl url_char_ok); [|apply quote_plus_ok].
  intros x. now apply url_char_ok_not.
Qed.

(** X2: a quoted string is made of letters, digits, [_.-~], [%] and [+]
    only, so whatever the key and the identifiers hold, the query of a
    request has exactly two [&] and three [=] (those that separate the
    three parameters), and no space, comma, [#] or further [?]. *)
Theorem request_url_query_shape (api_key : string) (chunk : list string) :
  let query := Url.urlencode
                 [("key", api_key); ("part", PARTS); ("id", PyStr.join "," chunk)] in
  request_url api_key chunk = (API_BASE ++ "?" ++ query)%string
  /\ all_chars url_char_ok (Url.quote_plus api_key) = true
  /\ all_chars url_char_ok (Url.quote_plus (PyStr.join "," chunk)) = true
  /\ count_char "&" query = 2%nat
  /\ count_char "=" query = 3%nat
  /\ count_char " " query = 0%nat
  /\ count_char "," query = 0%nat
  /\ count_char "#" query = 0%nat
  /\ count_char "?" query = 0%nat.
Proof.
  intros query. split; [reflexivity|].
  split; [apply quote_plus_ok|]. split; [apply quote_plus_ok|].
  subst query. unfold Url.urlencode. cbn [map fst snd PyStr.join].
  change (Url.quote_plus "key") with "key".
  change (Url.quote_plus "part") with "part".
  change (Url.quote_plus "id") with "id".
  change (Url.quote_plus PARTS) with "snippet%2CcontentDetails%2Cstatistics".
  repeat split; rewrite !count_char_app, !count_char_quote_plus by reflexivity;
    reflexivity.
Qed.

(** ** Normalising, again *)

Lemma normalize_ids_spec raw : normalize_ids raw = spec_normalize raw.
Proof. unfold normalize_ids. now rewrite normalize_loop_spec. Qed.

Lemma spec_tokens_nil_iff s : spec_tokens s = [] <-> all_chars is_sep s = true.
Proof.
  unfold spec_tokens. induction s as [|c r IH]; cbn [split_on all_chars].
  - cbn. tauto.
  - destruct (is_sep c); cbn [andb filter non_empty PyStr.is_empty negb].
    + exact IH.
    + destruct (split_on is_sep r); cbn; split; discriminate.
Qed.

Lemma spec_normalize_nil_iff raw :
  spec_normalize raw = [] <-> Forall (fun s => all_chars is_sep s = true) raw.
Proof.
  induction raw as [|s rest IH]; cbn [spec_normalize flat_map].
  - split; [constructor|reflexivity].
  - fold (spec_normalize rest). split.
    + intros H. apply app_eq_nil in H as [Hs Hr].
      constructor; [now apply spec_tokens_nil_iff|now apply IH].
    + intros H. inversion H as [|? ? Hs Hr]; subst.
      rewrite (proj2 (spec_tokens_nil_iff s) Hs). now apply IH.
Qed.

(** A token followed by a comma is the first piece, whatever follows. *)
Lemma split_on_token_comma t rest :
  no_sep t = true ->
  split_on is_sep (t ++ String "," rest) = t :: split_on is_sep rest.
Proof.
  unfold no_sep. induction t as [|c t IH]; cbn [String.append split_on all_chars].
  - intros _. reflexivity.
  - intros H. apply andb_true_iff in H as [Hc Ht].
    apply negb_true_iff in Hc. now rewrite Hc, (IH Ht).
Qed.

Lemma split_on_join ts :
  ts <> [] -> Forall is_token ts ->
  split_on is_sep (PyStr.join "," ts) = ts.
Proof.
  induction ts as [|t rest IH]; [congruence|]. intros _ H.
  inversion H as [|? ? [_ Ht] Hrest]; subst.
  destruct rest as [|t' rest'].
  - cbn [PyStr.join]. now apply split_on_token.
  - change (PyStr.join "," (t :: t' :: rest'))
      with (t ++ String "," (PyStr.join "," (t' :: rest')))%string.
    rewrite (split_on_token_comma _ _ Ht), IH; [reflexivity|discriminate|exact Hrest].
Qed.

Lemma filter_tokens ts : Forall is_token ts -> filter non_empty ts = ts.
Proof.
  induction 1 as [|t ts [Hne _] _ IH]; [reflexivity|].
  cbn [filter]. now rewrite Hne, IH.
Qed.

Lemma normalize_join ts :
  Forall is_token ts -> normalize_ids [PyStr.join "," ts] = ts.
Proof.
  intros H. rewrite normalize_ids_spec. cbn [spec_normalize flat_map].
  rewrite app_nil_r. unfold spec_tokens. destruct ts as [|t rest]; [reflexivity|].
  rewrite split_on_join by (discriminate || exact H). now apply filter_tokens.
Qed.

(** X3: normalising is idempotent; the result is empty exactly when every
    input string is made of commas and white space only; and the
    identifiers of a chunk joined by commas, as a request sends them, split
    back into the same identifiers. *)
Theorem normalize_ids_idempotent (raw : list string) :
  normalize_ids (normalize_ids raw) = normalize_ids raw
  /\ (normalize_ids raw = []
      <-> Forall (fun s => all_chars is_sep s = true) raw)
  /\ normalize_ids [PyStr.join "," (normalize_ids raw)] = normalize_ids raw
  /\ (forall chunk, Forall is_token chunk ->
                    normalize_ids [PyStr.join "," chunk] = chunk).
Proof.
  assert (T : Forall is_token (normalize_ids raw))
    by (rewrite normalize_ids_spec; apply spec_normalize_Forall).
  split.
  { rewrite (normalize_ids_spec (normalize_ids raw)).
    now apply spec_normalize_tokens. }
  split; [rewrite normalize_ids_spec; apply spec_normalize_nil_iff|].
  split; [now apply normalize_join|exact normalize_join].
Qed.

Lemma normalize_ids_idempotent_witness :
  normalize_ids [PyStr.join "," ["dQw4w9WgXcQ"; "9bZkp7q19f0"]]
  = ["dQw4w9WgXcQ"; "9bZkp7q19f0"]
  /\ normalize_ids [" ,, "; ""; ","] = [].
Proof.
  split.
  - apply (proj2 (proj2 (proj2 (normalize_ids_idempotent [])))).
    repeat constructor.
  - apply (proj1 (proj2 (normalize_ids_idempotent [" ,, "; ""; ","]))).
    repeat constructor.
Defined.

(** ** Decimal texts *)

Ltac eval_digits :=
  repeat match goal with
         | |- context [PyStr.digit_val ?c] =>
             let v := eval vm_compute in (PyStr.digit_val c) in
             change (PyStr.digit_val c) with v
         end.

Lemma int_acc_of_uint_acc d : forall acc,
  PyStr.int_acc (Npos acc) (NilEmpty.string_of_uint d)
  = Npos (Pos.of_uint_acc d acc).
Proof.
  induction d as [|d IH|d IH|d IH|d IH|d IH|d IH|d IH|d IH|d IH|d IH];
    intros acc;
    cbn [NilEmpty.string_of_uint PyStr.int_acc Pos.of_uint_acc];
    [reflexivity|..];
    rewrite <- IH; f_equal; eval_digits; lia.
Qed.

Lemma int_acc_of_uint d :
  PyStr.int_acc 0 (NilEmpty.string_of_uint d) = Pos.of_uint d.
Proof.
  induction d as [|d IH|d IH|d IH|d IH|d IH|d IH|d IH|d IH|d IH|d IH];
    cbn [NilEmpty.string_of_uint PyStr.int_acc Pos.of_uint];
    [reflexivity|exact IH|..];
    rewrite <- int_acc_of_uint_acc; f_equal.
Qed.

(** Reading the decimal text of a number gives the number back. *)
Lemma int_of_str n : PyStr.int_of_digits (PyStr.str_of_N n) = n.
Proof.
  unfold PyStr.int_of_digits, PyStr.str_of_N. rewrite int_acc_of_uint.
  apply DecimalN.Unsigned.of_to.
Qed.

Lemma string_of_uint_digits d :
  all_chars PyStr.is_digit (NilEmpty.string_of_uint d) = true.
Proof. induction d; cbn [NilEmpty.string_of_uint all_chars]; auto. Qed.

Lemma str_of_N_digits n : all_chars PyStr.is_digit (PyStr.str_of_N n) = true.
Proof. apply string_of_uint_digits. Qed.

Lemma str_of_N_non_empty n : PyStr.is_empty (PyStr.str_of_N n) = false.
Proof.
  unfold PyStr.str_of_N. destruct n as [|p]; [reflexivity|].
  cbn [N.to_uint]. pose proof (DecimalPos.Unsigned.to_uint_nonnil p) as H.
  destruct (Pos.to_uint p); cbn; congruence.
Qed.

Lemma str_of_N_ok n : digits_ok (Some (PyStr.str_of_N n)) = true.
Proof.
  cbn [digits_ok]. now rewrite str_of_N_non_empty, str_of_N_digits.
Qed.

Lemma int_acc_zeros k s : forall acc,
  acc = 0%N -> PyStr.int_acc acc (PyStr.zeros k ++ s) = PyStr.int_acc 0 s.
Proof.
  induction k as [|k IH]; intros acc ->; [reflexivity|].
  cbn [PyStr.zeros String.append PyStr.int_acc]. now apply IH.
Qed.

(** Zeros on the left do not change the number read. *)
Lemma int_of_format_02d n : PyStr.int_of_digits (PyStr.format_02d n) = n.
Proof.
  unfold PyStr.format_02d, PyStr.zfill, PyStr.int_of_digits.
  rewrite int_acc_zeros by reflexivity. apply int_of_str.
Qed.

Lemma zeros_digits k : all_chars PyStr.is_digit (PyStr.zeros k) = true.
Proof. induction k; cbn; auto. Qed.

Lemma format_02d_digits n : all_chars PyStr.is_digit (PyStr.format_02d n) = true.
Proof.
  unfold PyStr.format_02d, PyStr.zfill.
  now rewrite all_chars_app, zeros_digits, str_of_N_digits.
Qed.

(** ** Clock texts *)

Lemma digit_clock_char c : PyStr.is_digit c = true -> clock_char c = true.
Proof. intros H. unfold clock_char. now rewrite H. Qed.

Lemma clock_char_not_space c : clock_char c = true -> PyStr.is_space c = false.
Proof. by_cases_on_char c. Qed.

Lemma clock_char_not_P c : clock_char c = true -> PyStr.eq_ci c "P" = false.
Proof. by_cases_on_char c. Qed.

Lemma digit_not_colon c :
  PyStr.is_digit c = true -> negb (Ascii.eqb c ":") = true.
Proof. by_cases_on_char c. Qed.

Lemma count_colon_digits s :
  all_chars PyStr.is_digit s = true -> count_char ":" s = 0%nat.
Proof.
  intros H. apply count_char_none.
  apply (all_chars_impl PyStr.is_digit); [exact digit_not_colon|exact H].
Qed.

Lemma digits_clock s :
  all_chars PyStr.is_digit s = true -> all_chars clock_char s = true.
Proof. apply all_chars_impl. exact digit_clock_char. Qed.

(** What a clock text looks like: digits and colons, one colon without the
    hours field and two with it; it has no white space and does not begin
    like a duration. *)
Lemma clock_text_shape h mn s :
  let out := if N.eqb h 0 then clock_ms mn s else clock_hms h mn s in
  all_chars clock_char out = true
  /\ count_char ":" out = (if N.eqb h 0 then 1 else 2)%nat
  /\ PyStr.strip out = out
  /\ starts_with_PT out = false
  /\ PyStr.is_empty out = false.
Proof.
  intros out.
  assert (A : all_chars clock_char out = true).
  { subst out. unfold clock_ms, clock_hms. destruct (N.eqb h 0);
      rewrite !all_chars_app; cbn [all_chars];
      rewrite ?(digits_clock _ (format_02d_digits _)),
        ?(digits_clock _ (str_of_N_digits _)); reflexivity. }
  assert (C : count_char ":" out = (if N.eqb h 0 then 1 else 2)%nat).
  { subst out. unfold clock_ms, clock_hms. destruct (N.eqb h 0);
      rewrite !count_char_app; cbn [count_char];
      rewrite ?(count_colon_digits _ (format_02d_digits _)),
        ?(count_colon_digits _ (str_of_N_digits _)); reflexivity. }
  split; [exact A|]. split; [exact C|]. split.
  { apply strip_id. apply (all_chars_impl clock_char); [|exact A].
    intros c Hc. now rewrite (clock_char_not_space c Hc). }
  split.
  { destruct out as [|p [|t r]]; try reflexivity.
    cbn [starts_with_PT all_chars] in *. apply andb_true_iff in A as [Hp _].
    now rewrite (clock_char_not_P p Hp). }
  destruct out; [|reflexivity]. cbn in C. destruct (N.eqb h 0); discriminate.
Qed.

(** A string that matches the pattern comes back as a clock text. *)
Lemma parse_duration_match s w :
  parse_duration (PStr s) = Ok w -> starts_with_PT (PyStr.strip s) = true ->
  exists h mn sec,
    w = PStr (if N.eqb h 0 then clock_ms mn sec else clock_hms h mn sec).
Proof.
  intros H Hpt. unfold parse_duration in H.
  destruct s as [|c r]; [discriminate|].
  change (truthy (PStr (String c r))) with true in H. cbn [negb] in H.
  destruct (DURATION_RE_match (PyStr.strip (String c r)))
    as [[[gh gm] gs]|] eqn:Hm.
  - destruct (int_group gh) as [h|e]; [|discriminate].
    destruct (int_group gm) as [mn|e]; [|discriminate].
    destruct (int_group gs) as [sec|e]; [|discriminate].
    cbn [bind] in H. injection H as <-. exists h, mn, sec.
    now destruct (N.eqb h 0).
  - apply DURATION_RE_match_None in Hm. congruence.
Qed.

Lemma parse_duration_clock_text h mn s :
  let out := if N.eqb h 0 then clock_ms mn s else clock_hms h mn s in
  parse_duration (PStr out) = Ok (PStr out).
Proof.
  intros out. destruct (clock_text_shape h mn s) as (_ & _ & Hs & Hpt & He).
  fold out in Hs, Hpt, He. unfold parse_duration.
  cbn [truthy]. rewrite He. cbn [negb]. rewrite Hs.
  now rewrite (proj2 (DURATION_RE_match_None out) Hpt).
Qed.

(** X4: what [parse_duration] returns it returns again when applied to it;
    and for a string that matches the pattern the result is a clock text:
    digits and colons only, with one colon or two. *)
Theorem parse_duration_idempotent (v w : pyval) :
  parse_duration v = Ok w ->
  parse_duration w = Ok w
  /\ (forall s, v = PStr s -> starts_with_PT (PyStr.strip s) = true ->
      exists out, w = PStr out /\ all_chars clock_char out = true
                  /\ (count_char ":" out = 1 \/ count_char ":" out = 2)%nat).
Proof.
  intros H. split.
  - destruct (truthy v) eqn:Tv.
    + destruct v; try (unfold parse_duration in H; rewrite Tv in H; discriminate).
      destruct (starts_with_PT (PyStr.strip s)) eqn:Hpt.
      * destruct (parse_duration_match s w H Hpt) as (h & mn & sec & ->).
        apply parse_duration_clock_text.
      * unfold parse_duration in H. rewrite Tv in H. cbn [negb] in H.
        rewrite (proj2 (DURATION_RE_match_None _) Hpt) in H.
        injection H as <-. unfold parse_duration. rewrite Tv. cbn [negb].
        now rewrite (proj2 (DURATION_RE_match_None _) Hpt).
    + unfold parse_duration in H. rewrite Tv in H. now injection H as <-.
  - intros s -> Hpt.
    destruct (parse_duration_match s w H Hpt) as (h & mn & sec & ->).
    destruct (clock_text_shape h mn sec) as (A & C & _).
    eexists. split; [reflexivity|]. split; [exact A|].
    rewrite C. destruct (N.eqb h 0); tauto.
Qed.

Lemma parse_duration_idempotent_witness :
  parse_duration (PStr "1:30:00") = Ok (PStr "1:30:00")
  /\ exists out, PStr "1:30:00" = PStr out /\ all_chars clock_char out = true.
Proof.
  destruct (parse_duration_idempotent (PStr " pt1h30m trailing") (PStr "1:30:00")
              eq_refl) as [Again Shape].
  split; [exact Again|].
  destruct (Shape _ eq_refl eq_refl) as (out & E & A & _).
  now exists out.
Defined.

Lemma iso_of_form h mn s :
  iso_of h mn s
  = iso_form "P" "T" "H" "M" "S" (Some (PyStr.str_of_N h))
      (Some (PyStr.str_of_N mn)) (Some (PyStr.str_of_N s)).
Proof.
  unfold iso_of, iso_form, component. cbn [String.append].
  rewrite !string_app_assoc. reflexivity.
Qed.

(** X5: a duration written from three numbers, [PT<h>H<m>M<s>S], is read
    back with the same numbers (when none has more digits than [int]
    accepts): the result is the clock text of [h], [m] and [s], without the
    hours field when [h] is zero, and each field of that text, read as a
    decimal number, is the number it was written from. *)
Theorem parse_duration_round_trip (h mn s : N) :
  (String.length (PyStr.str_of_N h) <= INT_MAX_STR_DIGITS)%nat ->
  (String.length (PyStr.str_of_N mn) <= INT_MAX_STR_DIGITS)%nat ->
  (String.length (PyStr.str_of_N s) <= INT_MAX_STR_DIGITS)%nat ->
  parse_duration (PStr (iso_of h mn s))
  = Ok (PStr (if N.eqb h 0 then clock_ms mn s else clock_hms h mn s))
  /\ PyStr.int_of_digits (PyStr.str_of_N h) = h
  /\ PyStr.int_of_digits (PyStr.format_02d mn) = mn
  /\ PyStr.int_of_digits (PyStr.format_02d s) = s.
Proof.
  intros Lh Lm Ls.
  split; [|split; [apply int_of_str|split; apply int_of_format_02d]].
  rewrite iso_of_form. unfold parse_duration.
  change (truthy (PStr (iso_form _ _ _ _ _ _ _ _))) with true. cbn [negb].
  rewrite strip_id
    by (apply iso_form_no_space; (reflexivity || apply str_of_N_ok)).
  rewrite DURATION_RE_match_form by (reflexivity || apply str_of_N_ok).
  rewrite !int_group_short by (cbn [short_ok]; now apply Nat.leb_le).
  cbn [bind group_val]. rewrite !int_of_str.
  now destruct (N.eqb h 0).
Qed.

Lemma parse_duration_round_trip_witness :
  parse_duration (PStr (iso_of 1 2 3)) = Ok (PStr "1:02:03")
  /\ parse_duration (PStr (iso_of 0 75 9)) = Ok (PStr "75:09").
Proof.
  split.
  - apply (parse_duration_round_trip 1 2 3); apply Nat.leb_le; reflexivity.
  - apply (parse_duration_round_trip 0 75 9); apply Nat.leb_le; reflexivity.
Defined.

(** ** The cells of a row *)

Lemma dict_lookup_set_same {V : Type} (d : list (string * V)) k v :
  dict_lookup (dict_set d k v) k = Some v.
Proof.
  induction d as [|[k' v'] d IH]; cbn [dict_set dict_lookup].
  - now rewrite String.eqb_refl.
  - destruct (String.eqb k' k) eqn:E; cbn [dict_lookup]; now rewrite E.
Qed.

Lemma dict_lookup_set_other {V : Type} (d : list (string * V)) k v k' :
  k <> k' -> dict_lookup (dict_set d k v) k' = dict_lookup d k'.
Proof.
  intros Hne. induction d as [|[x y] d IH]; cbn [dict_set dict_lookup].
  - now rewrite (proj2 (String.eqb_neq k k') Hne).
  - destruct (String.eqb x k) eqn:E; cbn [dict_lookup].
    + apply String.eqb_eq in E. subst x.
      now rewrite (proj2 (String.eqb_neq k k') Hne).
    + destruct (String.eqb x k'); [reflexivity|exact IH].
Qed.

Lemma dict_lookup_In {V : Type} (d : list (string * V)) k v :
  dict_lookup d k = Some v -> In (k, v) d.
Proof.
  induction d as [|[x y] d IH]; cbn [dict_lookup]; [discriminate|].
  destruct (String.eqb x k) eqn:E.
  - apply String.eqb_eq in E. subst x. intros H. injection H as ->. now left.
  - intros H. right. now apply IH.
Qed.

Lemma dict_lookup_None {V : Type} (d : list (string * V)) k :
  ~ In k (keys d) -> dict_lookup d k = None.
Proof.
  unfold keys. induction d as [|[x y] d IH]; cbn [dict_lookup map fst In];
    [reflexivity|].
  intros H. destruct (String.eqb_spec x k); [tauto|]. apply IH. tauto.
Qed.

Section Cells.

Variable iso_date : string -> option string.

(** In the registry a label belongs to one column: two entries with the
    same label have the same extractor. *)
Lemma registry_label_extractor c1 c2 label e1 e2 :
  dict_lookup (COLUMN_EXTRACTORS iso_date) c1 = Some (label, e1) ->
  dict_lookup (COLUMN_EXTRACTORS iso_date) c2 = Some (label, e2) ->
  e1 = e2.
Proof.
  intros H1 H2. apply dict_lookup_In in H1. apply dict_lookup_In in H2.
  unfold COLUMN_EXTRACTORS in H1, H2. cbn [In] in H1, H2.
  repeat destruct H1 as [H1|H1]; try contradiction;
    injection H1 as _ <- <-;
    repeat destruct H2 as [H2|H2]; try contradiction;
    first [discriminate H2|injection H2 as _ <-; reflexivity].
Qed.

(** A cell that holds what its column extracts is not changed by the rest
    of the loop. *)
Lemma fill_row_keeps item columns : forall r r',
  fill_row iso_date item columns r = Ok r' ->
  forall col label extract v,
    dict_lookup (COLUMN_EXTRACTORS iso_date) col = Some (label, extract) ->
    extract item = Ok v -> cell r label = Some v -> cell r' label = Some v.
Proof.
  induction columns as [|c rest IH]; intros r r' H col label extract v Hreg Hv Hc;
    cbn [fill_row] in H.
  - now injection H as <-.
  - destruct (dict_lookup (COLUMN_EXTRACTORS iso_date) c)
      as [[label0 extract0]|] eqn:Hreg0; [|now apply (IH r r' H col label extract)].
    destruct (extract0 item) as [v0|e] eqn:Hv0; [|discriminate].
    cbn [bind] in H. apply (IH _ _ H col label extract v Hreg Hv).
    unfold cell. destruct (String.eqb_spec label0 label) as [->|Hne].
    + rewrite (registry_label_extractor _ _ _ _ _ Hreg0 Hreg) in Hv0.
      rewrite Hv in Hv0. injection Hv0 as <-. apply dict_lookup_set_same.
    + rewrite dict_lookup_set_other by exact Hne. exact Hc.
Qed.

Lemma fill_row_cells item columns : forall r r',
  fill_row iso_date item columns r = Ok r' ->
  forall col label extract,
    In col columns ->
    dict_lookup (COLUMN_EXTRACTORS iso_date) col = Some (label, extract) ->
    exists v, extract item = Ok v /\ cell r' label = Some v.
Proof.
  induction columns as [|c rest IH]; intros r r' H col label extract Hin Hreg;
    cbn [fill_row] in H; [contradiction|].
  destruct Hin as [->|Hin].
  - rewrite Hreg in H. destruct (extract item) as [v|e] eqn:Hv; [|discriminate].
    cbn [bind] in H. exists v. split; [reflexivity|].
    apply (fill_row_keeps item rest _ _ H col label extract v Hreg Hv).
    apply dict_lookup_set_same.
  - destruct (dict_lookup (COLUMN_EXTRACTORS iso_date) c)
      as [[label0 extract0]|]; [|now apply (IH r r' H col label extract)].
    destruct (extract0 item) as [v0|e]; [|discriminate].
    cbn [bind] in H. now apply (IH _ r' H col label extract).
Qed.

Lemma rows_loop_Forall2 items columns : forall acc rows,
  rows_loop iso_date items columns acc = Ok rows ->
  exists new,
    rows = acc ++ new
    /\ Forall2 (fun item r => fill_row iso_date item columns [] = Ok r) items new.
Proof.
  induction items as [|item rest IH]; intros acc rows H; cbn [rows_loop] in H.
  - injection H as <-. exists []. split; [now rewrite app_nil_r|constructor].
  - destruct (fill_row iso_date item columns []) as [r|e] eqn:Hr; [|discriminate].
    cbn [bind] in H. apply IH in H as (new & -> & Hall).
    exists (r :: new). split; [now rewrite <- app_assoc|].
    now constructor.
Qed.

End Cells.

Lemma add_label_NoDup seen l : NoDup seen -> NoDup (add_label seen l).
Proof.
  intros H. unfold add_label.
  destruct (existsb (fun x => String.eqb x l) seen) eqn:E; [exact H|].
  apply NoDup_app; [exact H|repeat constructor; intros []|].
  intros x Hx [Hl|[]]. subst x.
  assert (existsb (fun y => String.eqb y l) seen = true)
    by (apply existsb_exists; exists l; split; [exact Hx|apply String.eqb_refl]).
  congruence.
Qed.

Lemma fold_add_label_NoDup labels : forall seen,
  NoDup seen -> NoDup (fold_left add_label labels seen).
Proof.
  induction labels as [|l rest IH]; intros seen H; cbn [fold_left]; [exact H|].
  apply IH. now apply add_label_NoDup.
Qed.

(** X6: in every row [items_to_rows] returns, the cell under the label of a
    selected column that the registry knows holds what the extractor of
    the column returns for the item of the row; no label occurs twice, also
    when the caller lists a column more than once; and a label that is not
    among those of the selection has no cell. *)
Theorem items_to_rows_cells
        (iso_date : string -> option string)
        (items : list pyval) (columns : option (list string))
        (rows : list row) :
  items_to_rows iso_date items columns = Ok rows ->
  Forall2
    (fun item r =>
       NoDup (keys r)
       /\ (forall col label extract,
              In col (columns_or_default columns) ->
              dict_lookup (COLUMN_EXTRACTORS iso_date) col = Some (label, extract) ->
              exists v, extract item = Ok v /\ cell r label = Some v)
       /\ (forall label,
              ~ In label (row_labels iso_date (columns_or_default columns)) ->
              cell r label = None))
    items rows.
Proof.
  unfold items_to_rows. intros H.
  apply rows_loop_Forall2 in H as (new & -> & Hall). cbn [app].
  induction Hall as [|item r items' new' Hr _ IH]; constructor; [|exact IH].
  assert (K : keys r
              = row_labels iso_date (columns_or_default columns))
    by (apply (fill_row_keys iso_date item _ [] r Hr)).
  split; [|split].
  - rewrite K. apply fold_add_label_NoDup. constructor.
  - intros col label extract. now apply (fill_row_cells iso_date item _ [] r Hr).
  - intros label Hl. apply dict_lookup_None. now rewrite K.
Qed.

Lemma items_to_rows_cells_witness :
  let item := PDict [("id", PStr "X"); ("snippet", PDict [("title", PStr "t")])] in
  Forall2
    (fun (it : pyval) (r : row) =>
       cell r "title" = Some (PStr "t") /\ cell r "duration" = None
       /\ NoDup (keys r))
    [item] [[("title", PStr "t"); ("id", PStr "X")]].
Proof.
  intros item.
  pose proof (items_to_rows_cells (fun _ => None) [item]
                (Some ["title"; "id"; "title"])
                [[("title", PStr "t"); ("id", PStr "X")]] eq_refl) as H.
  inversion H as [|? ? ? ? (Hn & Hc & Ha) Hrest]; subst.
  constructor; [|constructor].
  split; [|split; [|exact Hn]].
  - destruct (Hc "title" "title" _col_title (or_introl eq_refl) eq_refl)
      as (v & Hv & Hcell).
    injection Hv as <-. exact Hcell.
  - apply Ha. cbn. intros [E|[E|[]]]; discriminate.
Defined.

(** ** Escaped pipes *)

Lemma replace_pipe_escaped s : forall b,
  pipes_escaped b (PyStr.replace_char "|" "\|" s) = true.
Proof.
  induction s as [|c r IH]; intros b; [reflexivity|].
  cbn [PyStr.replace_char]. destruct (Ascii.eqb c "|") eqn:E.
  - cbn [String.append pipes_escaped]. now rewrite IH.
  - cbn [pipes_escaped]. now rewrite E, IH.
Qed.

Lemma replace_pipe_head s :
  forall r', PyStr.replace_char "|" "\|" s <> String "|" r'.
Proof.
  intros r'. destruct s as [|c r]; [discriminate|].
  cbn [PyStr.replace_char]. destruct (Ascii.eqb_spec c "|") as [->|Hne].
  - discriminate.
  - intros H. injection H as H _. contradiction.
Qed.

Lemma unescape_cons c rest :
  (forall r', rest <> String "|" r') ->
  unescape_pipes (String c rest) = String c (unescape_pipes rest).
Proof.
  intros H. destruct rest as [|x r']; [reflexivity|].
  destruct (Ascii.eqb_spec x "|") as [->|Hne]; [now elim (H r')|].
  destruct x as [[] [] [] [] [] [] [] []]; try reflexivity.
  now elim Hne.
Qed.

Lemma unescape_replace s : unescape_pipes (PyStr.replace_char "|" "\|" s) = s.
Proof.
  induction s as [|c r IH]; [reflexivity|].
  cbn [PyStr.replace_char]. destruct (Ascii.eqb_spec c "|") as [->|Hne].
  - cbn [String.append unescape_pipes Ascii.eqb Bool.eqb]. now rewrite IH.
  - rewrite unescape_cons by apply replace_pipe_head. now rewrite IH.
Qed.

Lemma replace_pipe_length s :
  String.length (PyStr.replace_char "|" "\|" s)
  = (String.length s + count_char "|" s)%nat.
Proof.
  induction s as [|c r IH]; [reflexivity|].
  cbn [PyStr.replace_char count_char String.length].
  destruct (Ascii.eqb c "|"); cbn [String.append String.length]; rewrite IH; lia.
Qed.

Lemma escape_cell_str v out :
  escape_cell v = PStr out ->
  exists s, v = PStr s /\ out = PyStr.replace_char "|" "\|" s.
Proof.
  destruct v; cbn [escape_cell]; try discriminate.
  intros H. injection H as <-. now eexists.
Qed.

(** X7: in the rows escaped for Markdown every pipe of a string cell comes
    right after a backslash; escaping a string loses nothing (the string is
    read back by dropping the backslash before each pipe, so two strings
    with the same escaped form are equal) and makes it longer by the number
    of its pipes. *)
Theorem escaped_rows_no_bare_pipe (rows : list row) :
  (forall r label out,
      In r (_escape_pipes_for_markdown rows) ->
      cell r label = Some (PStr out) -> pipes_escaped false out = true)
  /\ (forall s, unescape_pipes (PyStr.replace_char "|" "\|" s) = s)
  /\ (forall s s',
         PyStr.replace_char "|" "\|" s = PyStr.replace_char "|" "\|" s' ->
         s = s')
  /\ (forall s,
         String.length (PyStr.replace_char "|" "\|" s)
         = (String.length s + count_char "|" s)%nat).
Proof.
  split; [|split; [exact unescape_replace|split; [|exact replace_pipe_length]]].
  - intros r label out Hin Hcell. unfold _escape_pipes_for_markdown in Hin.
    apply in_map_iff in Hin as (r0 & <- & _).
    rewrite cell_escaped in Hcell.
    destruct (cell r0 label) as [v|]; [|discriminate].
    cbn [option_map] in Hcell. injection Hcell as Hcell.
    apply escape_cell_str in Hcell as (s & _ & ->).
    apply replace_pipe_escaped.
  - intros s s' H. rewrite <- (unescape_replace s), <- (unescape_replace s').
    now rewrite H.
Qed.

Lemma escaped_rows_no_bare_pipe_witness :
  pipes_escaped false "a\|b\\|" = true
  /\ pipes_escaped false "a|b" = false.
Proof.
  split; [|reflexivity].
  apply (proj1 (escaped_rows_no_bare_pipe [[("title", PStr "a|b\|")]])
               [("title", PStr "a\|b\\|")] "title" "a\|b\\|");
    [now left|reflexivity].
Defined.

(** ** Where an identifier is sent *)





(** ** The first request that fails *)

Lemma substring_prefix_length n s : (String.length (substring 0 n s) <= n)%nat.
Proof.
  revert s. induction n as [|n IH]; intros s.
  - destruct s; cbn; lia.
  - destruct s as [|c r]; cbn [substring String.length]; [lia|].
    specialize (IH r). lia.
Qed.

Section FetchAbort.

Variable urlopen : nat -> string -> http_result.
Variable json_loads : string -> string + pyval.
Variables (api_key : string) (video_ids : list string).

(** The rounds whose requests are answered with items arrays, before the
    rest of the loop. *)
Lemma fetch_loop_app pre : forall rest n acc new,
  all_items_of urlopen json_loads n (map (url_at api_key video_ids) pre)
  = Some new ->
  fetch_loop urlopen json_loads api_key video_ids (pre ++ rest) n acc
  = (map HttpGet (map (url_at api_key video_ids) pre)
     ++ fst (fetch_loop urlopen json_loads api_key video_ids rest
               (n + length pre) (acc ++ new)),
     snd (fetch_loop urlopen json_loads api_key video_ids rest
            (n + length pre) (acc ++ new))).
Proof.
  induction pre as [|i pre IH]; intros rest n acc new H;
    cbn [map all_items_of] in H.
  - injection H as <-. cbn [app length map]. rewrite Nat.add_0_r, app_nil_r.
    now destruct (fetch_loop _ _ _ _ rest n acc).
  - destruct (chunk_items urlopen json_loads n (url_at api_key video_ids i))
      as [got|] eqn:Hi; [|discriminate].
    destruct (all_items_of urlopen json_loads (S n) _) as [others|] eqn:Hr;
      [|discriminate].
    injection H as <-. cbn [app].
    rewrite (fetch_loop_hit _ _ _ _ i (pre ++ rest) n acc got Hi).
    rewrite (IH rest (S n) (acc ++ got) others Hr). cbn [fst snd map length app].
    now rewrite app_assoc, Nat.add_succ_r.
Qed.

(** The loop behind [fetch_videos], cut where the URLs are cut. *)
Lemma fetch_videos_split pre_urls u post_urls got :
  chunk_urls api_key video_ids = pre_urls ++ u :: post_urls ->
  all_items_of urlopen json_loads 0 pre_urls = Some got ->
  exists i post,
    url_at api_key video_ids i = u
    /\ fetch_videos urlopen json_loads api_key video_ids
       = (map HttpGet pre_urls
          ++ fst (fetch_loop urlopen json_loads api_key video_ids (i :: post)
                    (length pre_urls) got),
          snd (fetch_loop urlopen json_loads api_key video_ids (i :: post)
                 (length pre_urls) got)).
Proof.
  intros Hcut Hgot. unfold chunk_urls, chunks in Hcut. rewrite map_map in Hcut.
  change (fun x : nat => request_url api_key (slice video_ids x (x + BATCH_SIZE)))
    with (url_at api_key video_ids) in Hcut.
  apply map_eq_app in Hcut as (pre & rest & Hstarts & Hpre & Hrest).
  apply map_eq_cons in Hrest as (i & post & -> & Hi & _).
  exists i, post. split; [exact Hi|].
  unfold fetch_videos. rewrite Hstarts. subst pre_urls.
  rewrite (fetch_loop_app pre (i :: post) 0 [] got Hgot).
  cbn [Nat.add app]. now rewrite length_map.
Qed.

End FetchAbort.

(** X9: when the requests of the first chunks are answered with items
    arrays and the next one fails, [fetch_videos] stops there: it has made
    the requests up to the failing one and no further one, and the items
    already fetched are not returned.  For an HTTP error whose body the
    handler can read, for a transport error and for an answer that does
    not decode, it writes one message on standard error (the status code
    and at most the first 500 characters of the body, which may hold line
    breaks; the reason; the message of the decoder) and ends the program
    with status 1.  For an HTTP error whose body cannot be read or decoded
    the exception raised inside the handler is not caught: no message is
    written and [sys.exit] is not reached. *)
Theorem fetch_videos_aborts_at_first_failure
        (urlopen : nat -> string -> http_result)
        (json_loads : string -> string + pyval)
        (api_key : string) (video_ids : list string)
        (pre_urls : list string) (u : string) (post_urls : list string)
        (got : list pyval) :
  chunk_urls api_key video_ids = pre_urls ++ u :: post_urls ->
  all_items_of urlopen json_loads 0 pre_urls = Some got ->
  let run := fetch_videos urlopen json_loads api_key video_ids in
  let made := map HttpGet (pre_urls ++ [u]) in
  (forall code body,
      urlopen (length pre_urls) u = HTTPError code body ->
      run = (made ++ [Stderr ("yt-extract: API error " ++ PyStr.str_of_N code
                              ++ ": " ++ substring 0 500 body)],
             SysExit 1%Z)
      /\ (String.length (substring 0 500 body) <= 500)%nat)
  /\ (forall reason,
         urlopen (length pre_urls) u = URLError reason ->
         run = (made ++ [Stderr ("yt-extract: Request failed: " ++ reason)],
                SysExit 1%Z))
  /\ (forall data e,
         urlopen (length pre_urls) u = Response data ->
         json_loads data = inl e ->
         run = (made ++ [Stderr ("yt-extract: Invalid JSON response: " ++ e)],
                SysExit 1%Z))
  /\ (forall code,
         urlopen (length pre_urls) u = HTTPErrorUnread code ->
         run = (made, Uncaught OtherError) /\ stderr_of (fst run) = []).
Proof.
  intros Hcut Hgot run made.
  destruct (fetch_videos_split urlopen json_loads api_key video_ids
              pre_urls u post_urls got Hcut Hgot) as (i & post & Hi & Hrun).
  fold run in Hrun.
  assert (Hmade : forall tail,
             made ++ tail = map HttpGet pre_urls ++ HttpGet u :: tail).
  { intros tail. subst made. now rewrite map_app, <- app_assoc. }
  split; [|split; [|split]].
  - intros code body Hu. split; [|apply substring_prefix_length].
    rewrite Hrun, Hmade. cbn [fetch_loop]. fold (url_at api_key video_ids i).
    rewrite Hi, Hu. reflexivity.
  - intros reason Hu. rewrite Hrun, Hmade. cbn [fetch_loop].
    fold (url_at api_key video_ids i). rewrite Hi, Hu. reflexivity.
  - intros data e Hu He. rewrite Hrun, Hmade. cbn [fetch_loop].
    fold (url_at api_key video_ids i). rewrite Hi, Hu, He. reflexivity.
  - intros code Hu.
    assert (E : run = (made, Uncaught OtherError)).
    { rewrite Hrun, <- (app_nil_r made), Hmade. cbn [fetch_loop].
      fold (url_at api_key video_ids i). rewrite Hi, Hu. reflexivity. }
    split; [exact E|]. rewrite E. cbn [fst]. subst made.
    generalize (pre_urls ++ [u]). clear. intros l.
    induction l as [|x l IH]; [reflexivity|exact IH].
Qed.

Lemma fetch_videos_aborts_at_first_failure_witness :
  let urlopen := fun (n : nat) (_ : string) =>
    if (n =? 1)%nat then HTTPError 403 "quotaExceeded" else Response "x" in
  let json_loads := fun data : string =>
    @inr string pyval (PDict [("items", PList [PStr data])]) in
  let video_ids := repeat "id" 120 in
  requests_of (fst (fetch_videos urlopen json_loads "k" video_ids))
  = firstn 2 (chunk_urls "k" video_ids)
  /\ stderr_of (fst (fetch_videos urlopen json_loads "k" video_ids))
     = ["yt-extract: API error 403: quotaExceeded"]
  /\ snd (fetch_videos urlopen json_loads "k" video_ids) = SysExit 1%Z.
Proof.
  intros urlopen json_loads video_ids.
  destruct (fetch_videos_aborts_at_first_failure urlopen json_loads "k" video_ids
              (firstn 1 (chunk_urls "k" video_ids))
              (nth 1 (chunk_urls "k" video_ids) "")
              (skipn 2 (chunk_urls "k" video_ids))
              [PStr "x"] eq_refl eq_refl) as (Hhttp & _ & _).
  destruct (Hhttp 403%N "quotaExceeded" eq_refl) as [-> _].
  repeat split.
Defined.

(** ** The log of [main] *)

Lemma read_ids_exact (inv : invocation) :
  requested_ids inv <> [] ->
  exists ids0, read_ids inv = (prompt_log inv, Return ids0)
               /\ normalize_ids ids0 = requested_ids inv.
Proof.
  unfold read_ids, requested_ids, prompt_log.
  destruct (arg_video_ids inv) as [|v vs].
  - destruct (stdin_line inv) as [l|]; [|intros H; now elim H].
    intros _. eexists. split; reflexivity.
  - intros _. eexists. split; reflexivity.
Qed.

Lemma report_missing_exact video_ids found :
  report_missing video_ids found = (not_found_log video_ids found, Return tt).
Proof.
  unfold not_found_log, missing_ids.
  induction video_ids as [|vid rest IH]; cbn [report_missing filter map];
    [reflexivity|].
  rewrite IH. now destruct (in_found vid found).
Qed.

Lemma stderr_of_app l1 l2 : stderr_of (l1 ++ l2) = stderr_of l1 ++ stderr_of l2.
Proof.
  induction l1 as [|[] l1 IH]; cbn [app stderr_of]; try exact IH.
  - reflexivity.
  - now rewrite IH.
Qed.

Lemma stderr_of_gets urls : stderr_of (map HttpGet urls) = [].
Proof. induction urls as [|u urls IH]; cbn; [reflexivity|exact IH]. Qed.

Lemma stderr_of_not_found video_ids found :
  stderr_of (not_found_log video_ids found)
  = map not_found_line (missing_ids video_ids found).
Proof.
  unfold not_found_log.
  induction (missing_ids video_ids found) as [|vid rest IH];
    cbn [map stderr_of]; [reflexivity|now rewrite IH].
Qed.

Lemma stdout_of_not_found video_ids found :
  stdout_of (not_found_log video_ids found) = [].
Proof.
  unfold not_found_log.
  induction (missing_ids video_ids found) as [|vid rest IH];
    cbn [map stdout_of]; [reflexivity|exact IH].
Qed.

Lemma prompt_log_quiet inv :
  stderr_of (prompt_log inv) = [] /\ stdout_of (prompt_log inv) = []
  /\ requests_of (prompt_log inv) = [].
Proof. unfold prompt_log. now destruct (arg_video_ids inv). Qed.

Lemma found_ids_of_cons item rest :
  found_ids_of (item :: rest)
  = if item_id_ok item
    then (vs <- found_ids_of rest ;; Ok (id_of item :: vs))
    else Raise (match item with PDict _ => TypeError | _ => AttributeError end).
Proof.
  destruct item; try reflexivity. cbn [found_ids_of py_get bind item_id_ok id_of].
  destruct (dict_lookup d "id") as [v|]; cbn [bind hashable];
    [destruct (hashable v)|]; reflexivity.
Qed.

Lemma found_ids_of_spec items : forall found,
  found_ids_of items = Ok found <->
  forallb item_id_ok items = true /\ found = map id_of items.
Proof.
  induction items as [|item rest IH]; intros found.
  - cbn. split; [intros H; now injection H as <-|intros [_ ->]; reflexivity].
  - rewrite found_ids_of_cons. cbn [forallb map].
    destruct (item_id_ok item); cbn [andb].
    + destruct (found_ids_of rest) as [vs|e]; cbn [bind].
      * destruct (proj1 (IH vs) eq_refl) as [Hall ->]. split.
        -- intros H. injection H as <-. now split.
        -- intros [_ ->]. reflexivity.
      * split; [discriminate|]. intros [Hall _].
        pose proof (proj2 (IH (map id_of rest)) (conj Hall eq_refl)).
        discriminate.
    + split; [discriminate|]. intros [H _]. discriminate.
Qed.

Lemma in_found_iff vid found : in_found vid found = true <-> In (PStr vid) found.
Proof.
  unfold in_found. rewrite existsb_exists. split.
  - intros (v & Hin & Hv). destruct v; try discriminate.
    apply String.eqb_eq in Hv. now subst.
  - intros H. exists (PStr vid). split; [exact H|apply String.eqb_refl].
Qed.

Section MainLog.

Variable iso_date : string -> option string.
Variable urlopen : nat -> string -> http_result.
Variable json_loads : string -> string + pyval.
Variable tabulate : list row -> string -> string.
Variable inv : invocation.

(** What [main] does once the identifiers and the key are there and the
    fetch has returned [items]: the log up to the rows. *)
Lemma main_after_fetch flog items :
  requested_ids inv <> [] ->
  PyStr.is_empty (api_key_of inv) = false ->
  fetch_videos urlopen json_loads (api_key_of inv) (requested_ids inv)
  = (flog, Return items) ->
  main iso_date urlopen json_loads tabulate inv
  = match found_ids_of items with
    | Raise e => (prompt_log inv ++ flog, Uncaught e)
    | Ok found =>
        let log := prompt_log inv ++ flog
                   ++ not_found_log (requested_ids inv) found in
        match items_to_rows iso_date items None with
        | Raise e => (log, Uncaught e)
        | Ok [] => (log, SysExit 1%Z)
        | Ok rows =>
            (log ++ [Stdout (tabulate (shown_rows (arg_format inv) rows)
                                      (tablefmt_of (arg_format inv)))],
             Return tt)
        end
    end.
Proof.
  intros Hids Hkey Hfetch.
  destruct (read_ids_exact inv Hids) as (ids0 & Hread & Hnorm).
  unfold main. rewrite Hread, pbind_Return. rewrite Hnorm.
  destruct (requested_ids inv) as [|v vs] eqn:Ereq; [now elim Hids|].
  rewrite get_api_key_run, Hkey. cbv iota.
  rewrite pbind_Return, Hfetch, pbind_Return.
  destruct (found_ids_of items) as [found|e]; cbn [lift]; unfold pret.
  - rewrite pbind_Return, report_missing_exact, pbind_Return.
    destruct (items_to_rows iso_date items None) as [rows|e]; cbn [lift];
      unfold pret.
    + rewrite pbind_Return, main_render_run.
      destruct rows; cbn [fst snd app]; rewrite ?app_nil_r, <- ?app_assoc;
        reflexivity.
    + cbn [pbind fst snd app]. now rewrite ?app_nil_r, <- ?app_assoc.
  - cbn [pbind fst snd app]. now rewrite ?app_nil_r.
Qed.

End MainLog.

Lemma missing_ids_iff video_ids found vid :
  In vid (missing_ids video_ids found)
  <-> In vid video_ids /\ ~ In (PStr vid) found.
Proof.
  unfold missing_ids. rewrite filter_In, negb_true_iff.
  rewrite <- in_found_iff. destruct (in_found vid found); split;
    intros [H1 H2]; split; congruence.
Qed.

Lemma fetch_log_quiet urlopen json_loads api_key video_ids flog items :
  fetch_videos urlopen json_loads api_key video_ids = (flog, Return items) ->
  stderr_of flog = [] /\ stdout_of flog = []
  /\ requests_of flog = chunk_urls api_key video_ids.
Proof.
  intros H. apply fetch_videos_returns in H as [-> _].
  now rewrite stderr_of_gets, stdout_of_gets, requests_of_gets.
Qed.

(** X10: when the fetch returns items whose ids can be compared, standard
    error shows, whether or not a table follows, exactly one line
    [Not found: <id>] for each requested identifier, in the order and with
    the repetitions of the request, that is not the id of a returned item;
    an identifier is reported exactly when it was requested and no returned
    item has it as its id. *)
Theorem main_reports_missing
        (iso_date : string -> option string)
        (urlopen : nat -> string -> http_result)
        (json_loads : string -> string + pyval)
        (tabulate : list row -> string -> string)
        (inv : invocation) (flog : list event) (items : list pyval) :
  requested_ids inv <> [] ->
  PyStr.is_empty (api_key_of inv) = false ->
  fetch_videos urlopen json_loads (api_key_of inv) (requested_ids inv)
  = (flog, Return items) ->
  forallb item_id_ok items = true ->
  stderr_of (fst (main iso_date urlopen json_loads tabulate inv))
  = map not_found_line (missing_ids (requested_ids inv) (map id_of items))
  /\ (forall vid,
         In vid (missing_ids (requested_ids inv) (map id_of items))
         <-> In vid (requested_ids inv) /\ ~ In (PStr vid) (map id_of items)).
Proof.
  intros Hids Hkey Hfetch Hok. split; [|intros vid; apply missing_ids_iff].
  rewrite (main_after_fetch iso_date urlopen json_loads tabulate inv flog items
             Hids Hkey Hfetch).
  rewrite (proj2 (found_ids_of_spec items (map id_of items)) (conj Hok eq_refl)).
  destruct (fetch_log_quiet _ _ _ _ _ _ Hfetch) as (Qe & _ & _).
  destruct (prompt_log_quiet inv) as (Pe & _ & _).
  cbv zeta.
  destruct (items_to_rows iso_date items None) as [[|r rs]|e]; cbn [fst];
    rewrite ?stderr_of_app, Pe, Qe, stderr_of_not_found; cbn [stderr_of app];
    now rewrite ?app_nil_r.
Qed.

Lemma main_reports_missing_witness :
  let iso_date := fun _ : string => @None string in
  let urlopen := fun (_ : nat) (_ : string) => Response "Y" in
  let json_loads := fun data : string =>
    @inr string pyval (PDict [("items", PList [PDict [("id", PStr data)]])]) in
  let tabulate := fun (rows : list row) (fmt : string) => fmt in
  let inv := {| arg_video_ids := ["X,Y"; "Z X"]; arg_format := Grid;
                stdin_line := None; environ_key := Some "k" |} in
  stderr_of (fst (main iso_date urlopen json_loads tabulate inv))
  = ["yt-extract: Not found: X"; "yt-extract: Not found: Z";
     "yt-extract: Not found: X"].
Proof.
  intros iso_date urlopen json_loads tabulate inv.
  exact (proj1 (main_reports_missing iso_date urlopen json_loads tabulate inv
                  _ [PDict [("id", PStr "Y")]]
                  ltac:(discriminate) eq_refl eq_refl eq_refl)).
Defined.

(** X11: identifiers that are not found do not make the run fail: when the
    fetch returns at least one item and the items have the expected shape,
    [main] returns (status 0) whatever identifiers are missing; it builds
    one row per item and prints the table once, after all the lines about
    missing identifiers. *)
Theorem main_partial_miss_succeeds
        (iso_date : string -> option string)
        (urlopen : nat -> string -> http_result)
        (json_loads : string -> string + pyval)
        (tabulate : list row -> string -> string)
        (inv : invocation) (flog : list event) (items : list pyval) :
  requested_ids inv <> [] ->
  PyStr.is_empty (api_key_of inv) = false ->
  fetch_videos urlopen json_loads (api_key_of inv) (requested_ids inv)
  = (flog, Return items) ->
  items <> [] ->
  forallb item_id_ok items = true ->
  forallb item_ok items = true ->
  exists rows,
    items_to_rows iso_date items None = Ok rows
    /\ length rows = length items
    /\ main iso_date urlopen json_loads tabulate inv
       = (prompt_log inv ++ flog
          ++ not_found_log (requested_ids inv) (map id_of items)
          ++ [Stdout (tabulate (shown_rows (arg_format inv) rows)
                               (tablefmt_of (arg_format inv)))],
          Return tt)
    /\ exit_status (snd (main iso_date urlopen json_loads tabulate inv)) = 0%Z.
Proof.
  intros Hids Hkey Hfetch Hne Hid Hok.
  destruct (rows_loop_total iso_date items DEFAULT_TABLE_COLUMNS Hok [])
    as [rows Hrows].
  change (rows_loop iso_date items DEFAULT_TABLE_COLUMNS [])
    with (items_to_rows iso_date items None) in Hrows.
  destruct (items_to_rows_spec iso_date items None rows Hrows) as [Hlen _].
  rewrite (main_after_fetch iso_date urlopen json_loads tabulate inv flog items
             Hids Hkey Hfetch).
  rewrite (proj2 (found_ids_of_spec items (map id_of items)) (conj Hid eq_refl)).
  rewrite Hrows. exists rows. split; [reflexivity|]. split; [exact Hlen|].
  destruct rows as [|r rs].
  - destruct items; [now elim Hne|discriminate].
  - cbv zeta. rewrite <- !app_assoc. split; reflexivity.
Qed.

Lemma main_partial_miss_succeeds_witness :
  let iso_date := fun _ : string => @None string in
  let urlopen := fun (_ : nat) (_ : string) => Response "Y" in
  let json_loads := fun data : string =>
    @inr string pyval (PDict [("items", PList [PDict [("id", PStr data)]])]) in
  let tabulate := fun (rows : list row) (fmt : string) => fmt in
  let inv := {| arg_video_ids := ["X"; "Y"; "Z"]; arg_format := Grid;
                stdin_line := None; environ_key := Some "k" |} in
  exit_status (snd (main iso_date urlopen json_loads tabulate inv)) = 0%Z.
Proof.
  intros iso_date urlopen json_loads tabulate inv.
  destruct (main_partial_miss_succeeds iso_date urlopen json_loads tabulate inv
              _ [PDict [("id", PStr "Y")]]
              ltac:(discriminate) eq_refl eq_refl ltac:(discriminate)
              eq_refl eq_refl) as (rows & _ & _ & _ & H).
  exact H.
Defined.

Section MainEarly.

Variable iso_date : string -> option string.
Variable urlopen : nat -> string -> http_result.
Variable json_loads : string -> string + pyval.
Variable tabulate : list row -> string -> string.
Variable inv : invocation.

(** Without identifiers [main] stops before it looks at the key. *)
Lemma main_no_ids :
  requested_ids inv = [] ->
  main iso_date urlopen json_loads tabulate inv
  = (prompt_log inv ++ [Stderr "yt-extract: No video IDs provided."],
     SysExit 1%Z).
Proof.
  unfold main, read_ids, requested_ids, prompt_log.
  destruct (arg_video_ids inv) as [|v vs].
  - destruct (stdin_line inv) as [l|]; [|reflexivity].
    intros H. cbn [emit pbind pret app]. now rewrite H.
  - intros H. cbn [pret pbind app]. now rewrite H.
Qed.

(** With identifiers and a blank key [main] stops before any request. *)
Lemma main_blank_key :
  requested_ids inv <> [] ->
  PyStr.is_empty (api_key_of inv) = true ->
  main iso_date urlopen json_loads tabulate inv
  = (prompt_log inv
     ++ [Stderr "yt-extract: Set YOUTUBE_DATA_API_KEY in your environment."],
     SysExit 1%Z).
Proof.
  intros Hids Hkey.
  destruct (read_ids_exact inv Hids) as (ids0 & Hread & Hnorm).
  unfold main. rewrite Hread, pbind_Return, Hnorm.
  destruct (requested_ids inv) as [|v vs]; [now elim Hids|].
  now rewrite get_api_key_run, Hkey.
Qed.

(** A fetch that does not return ends [main] where it ends. *)
Lemma main_fetch_stops flog o :
  requested_ids inv <> [] ->
  PyStr.is_empty (api_key_of inv) = false ->
  fetch_videos urlopen json_loads (api_key_of inv) (requested_ids inv)
  = (flog, o) ->
  (forall items, o <> Return items) ->
  fst (main iso_date urlopen json_loads tabulate inv) = prompt_log inv ++ flog
  /\ exit_status (snd (main iso_date urlopen json_loads tabulate inv))
     = exit_status o.
Proof.
  intros Hids Hkey Hfetch Hno.
  destruct (read_ids_exact inv Hids) as (ids0 & Hread & Hnorm).
  unfold main. rewrite Hread, pbind_Return, Hnorm.
  destruct (requested_ids inv) as [|v vs]; [now elim Hids|].
  rewrite get_api_key_run, Hkey. cbv iota. rewrite pbind_Return, Hfetch.
  destruct o as [items|c|e]; [now elim (Hno items)| |]; split; reflexivity.
Qed.

End MainEarly.

(** X12: [main] makes no request before the input and the configuration
    are checked: without identifiers it writes the line about identifiers
    and ends with status 1 without looking at the key, and with
    identifiers but a blank key it writes the line about the key and ends
    with status 1; in both cases nothing is requested and nothing is
    printed.  In every run the requests made are those of the first chunks
    of the normalised identifiers, in order, with the stripped key. *)
Theorem main_checks_before_network
        (iso_date : string -> option string)
        (urlopen : nat -> string -> http_result)
        (json_loads : string -> string + pyval)
        (tabulate : list row -> string -> string)
        (inv : invocation) :
  let run := main iso_date urlopen json_loads tabulate inv in
  (requested_ids inv = [] ->
   run = (prompt_log inv ++ [Stderr "yt-extract: No video IDs provided."],
          SysExit 1%Z)
   /\ requests_of (fst run) = [] /\ stdout_of (fst run) = [])
  /\ (requested_ids inv <> [] -> PyStr.is_empty (api_key_of inv) = true ->
      run = (prompt_log inv
             ++ [Stderr "yt-extract: Set YOUTUBE_DATA_API_KEY in your environment."],
             SysExit 1%Z)
      /\ requests_of (fst run) = [] /\ stdout_of (fst run) = [])
  /\ (exists m,
         requests_of (fst run)
         = firstn m (chunk_urls (api_key_of inv) (requested_ids inv))).
Proof.
  intros run. destruct (prompt_log_quiet inv) as (_ & Po & Pr).
  assert (A : requested_ids inv = [] ->
              run = (prompt_log inv
                     ++ [Stderr "yt-extract: No video IDs provided."],
                     SysExit 1%Z)
              /\ requests_of (fst run) = [] /\ stdout_of (fst run) = []).
  { intros H. subst run. rewrite (main_no_ids _ _ _ _ inv H). cbn [fst].
    now rewrite requests_of_app, stdout_of_app, Po, Pr. }
  assert (B : requested_ids inv <> [] ->
              PyStr.is_empty (api_key_of inv) = true ->
              run = (prompt_log inv
                     ++ [Stderr "yt-extract: Set YOUTUBE_DATA_API_KEY in your environment."],
                     SysExit 1%Z)
              /\ requests_of (fst run) = [] /\ stdout_of (fst run) = []).
  { intros H K. subst run. rewrite (main_blank_key _ _ _ _ inv H K). cbn [fst].
    now rewrite requests_of_app, stdout_of_app, Po, Pr. }
  split; [exact A|]. split; [exact B|].
  destruct (requested_ids inv) as [|v vs] eqn:Ereq.
  { exists 0%nat. now destruct (A eq_refl) as (_ & -> & _). }
  destruct (PyStr.is_empty (api_key_of inv)) eqn:Ekey.
  { exists 0%nat. destruct (B ltac:(discriminate) eq_refl) as (_ & -> & _).
    now rewrite firstn_0. }
  assert (Hids : requested_ids inv <> []) by (rewrite Ereq; discriminate).
  destruct (fetch_videos urlopen json_loads (api_key_of inv) (requested_ids inv))
    as [flog o] eqn:Hfetch.
  pose proof (fetch_videos_any_run urlopen json_loads (api_key_of inv)
                (requested_ids inv)) as (Hm & _ & _).
  rewrite Hfetch in Hm. cbn [fst] in Hm. rewrite <- Ereq.
  destruct o as [items|c|e].
  - subst run.
    rewrite (main_after_fetch iso_date urlopen json_loads tabulate inv flog items
               Hids Ekey Hfetch).
    destruct (fetch_log_quiet _ _ _ _ _ _ Hfetch) as (_ & _ & Hr).
    exists (length (chunk_urls (api_key_of inv) (requested_ids inv))).
    rewrite firstn_all.
    assert (N : forall ids found, requests_of (not_found_log ids found) = []).
    { intros ids found. unfold not_found_log.
      induction (missing_ids ids found); cbn [map requests_of]; auto. }
    destruct (found_ids_of items) as [found|e]; cbn [fst].
    + cbv zeta.
      destruct (items_to_rows iso_date items None) as [[|r rs]|e]; cbn [fst];
        rewrite ?requests_of_app, Pr, Hr, N; cbn [requests_of app];
        now rewrite ?app_nil_r.
    + now rewrite requests_of_app, Pr, Hr.
  - destruct (main_fetch_stops iso_date urlopen json_loads tabulate inv flog
                (SysExit c) Hids Ekey Hfetch ltac:(discriminate)) as [Hlog _].
    destruct Hm as [m Hm]. exists m. subst run.
    now rewrite Hlog, requests_of_app, Pr.
  - destruct (main_fetch_stops iso_date urlopen json_loads tabulate inv flog
                (Uncaught e) Hids Ekey Hfetch ltac:(discriminate)) as [Hlog _].
    destruct Hm as [m Hm]. exists m. subst run.
    now rewrite Hlog, requests_of_app, Pr.
Qed.

Lemma main_checks_before_network_witness :
  let iso_date := fun _ : string => @None string in
  let urlopen := fun (_ : nat) (_ : string) => Response "Y" in
  let json_loads := fun data : string => @inr string pyval (PDict []) in
  let tabulate := fun (rows : list row) (fmt : string) => fmt in
  fst (main iso_date urlopen json_loads tabulate
         {| arg_video_ids := []; arg_format := Grid;
            stdin_line := Some " , "; environ_key := None |})
  = [Prompt "Enter video ID(s), comma- or space-separated: ";
     Stderr "yt-extract: No video IDs provided."]
  /\ fst (main iso_date urlopen json_loads tabulate
            {| arg_video_ids := ["X"]; arg_format := Grid;
               stdin_line := None; environ_key := Some " " |})
     = [Stderr "yt-extract: Set YOUTUBE_DATA_API_KEY in your environment."].
Proof.
  intros iso_date urlopen json_loads tabulate. split.
  - destruct (proj1 (main_checks_before_network iso_date urlopen json_loads
                       tabulate
                       {| arg_video_ids := []; arg_format := Grid;
                          stdin_line := Some " , "; environ_key := None |})
                    eq_refl) as (-> & _).
    reflexivity.
  - destruct (proj1 (proj2 (main_checks_before_network iso_date urlopen json_loads
                       tabulate
                       {| arg_video_ids := ["X"]; arg_format := Grid;
                          stdin_line := None; environ_key := Some " " |}))
                    ltac:(discriminate) eq_refl) as (-> & _).
    reflexivity.
Defined.

(** ** Answers without items, answers of another shape *)

Lemma chunk_items_empty urlopen json_loads n u data d :
  urlopen n u = Response data -> json_loads data = inr (PDict d) ->
  items_missing d = true ->
  chunk_items urlopen json_loads n u = Some [].
Proof.
  intros Hu Hj Hm. unfold chunk_items. rewrite Hu, Hj.
  unfold items_missing in Hm. cbn [py_get].
  destruct (dict_lookup d "items") as [v|]; cbn [bind]; [|reflexivity].
  apply negb_true_iff in Hm. unfold py_or. now rewrite Hm.
Qed.

Lemma all_items_of_empty urlopen json_loads urls : forall n,
  (forall k u, nth_error urls k = Some u ->
               chunk_items urlopen json_loads (n + k) u = Some []) ->
  all_items_of urlopen json_loads n urls = Some [].
Proof.
  induction urls as [|u urls IH]; intros n H; cbn [all_items_of]; [reflexivity|].
  pose proof (H 0%nat u eq_refl) as H0. rewrite Nat.add_0_r in H0. rewrite H0.
  rewrite IH; [reflexivity|].
  intros k u' Hk. specialize (H (S k) u' Hk).
  now replace (S n + k)%nat with (n + S k)%nat by lia.
Qed.

Lemma missing_ids_nil video_ids : missing_ids video_ids [] = video_ids.
Proof.
  unfold missing_ids. induction video_ids as [|v vs IH]; [reflexivity|].
  cbn [filter]. change (in_found v []) with false. cbn [negb]. now rewrite IH.
Qed.

(** X13: when every request is answered with a mapping that has no items
    (the key is absent, null or an empty list), [main] makes the requests
    of all chunks, then reports every requested identifier as not found, in
    order, prints no table and ends with status 1. *)
Theorem main_total_miss
        (iso_date : string -> option string)
        (urlopen : nat -> string -> http_result)
        (json_loads : string -> string + pyval)
        (tabulate : list row -> string -> string)
        (inv : invocation) :
  requested_ids inv <> [] ->
  PyStr.is_empty (api_key_of inv) = false ->
  (forall k u,
      nth_error (chunk_urls (api_key_of inv) (requested_ids inv)) k = Some u ->
      exists data d,
        urlopen k u = Response data /\ json_loads data = inr (PDict d)
        /\ items_missing d = true) ->
  main iso_date urlopen json_loads tabulate inv
  = (prompt_log inv
     ++ map HttpGet (chunk_urls (api_key_of inv) (requested_ids inv))
     ++ map (fun vid => Stderr (not_found_line vid)) (requested_ids inv),
     SysExit 1%Z).
Proof.
  intros Hids Hkey Hans.
  assert (Hall : all_items_of urlopen json_loads 0
                   (chunk_urls (api_key_of inv) (requested_ids inv)) = Some []).
  { apply all_items_of_empty. intros k u Hk. cbn [Nat.add].
    destruct (Hans k u Hk) as (data & d & Hu & Hj & Hm).
    exact (chunk_items_empty _ _ _ _ _ _ Hu Hj Hm). }
  pose proof (proj2 (fetch_videos_returns urlopen json_loads (api_key_of inv)
                       (requested_ids inv) _ []) (conj eq_refl Hall)) as Hfetch.
  rewrite (main_after_fetch iso_date urlopen json_loads tabulate inv _ []
             Hids Hkey Hfetch).
  cbn [found_ids_of]. cbv zeta. unfold not_found_log.
  now rewrite missing_ids_nil.
Qed.

Lemma main_total_miss_witness :
  let iso_date := fun _ : string => @None string in
  let urlopen := fun (_ : nat) (_ : string) => Response "{}" in
  let json_loads := fun data : string =>
    @inr string pyval (PDict [("items", PList [])]) in
  let tabulate := fun (rows : list row) (fmt : string) => fmt in
  let inv := {| arg_video_ids := ["X Y"]; arg_format := Markdown;
                stdin_line := None; environ_key := Some "k" |} in
  main iso_date urlopen json_loads tabulate inv
  = ([HttpGet (request_url "k" ["X"; "Y"]);
      Stderr "yt-extract: Not found: X"; Stderr "yt-extract: Not found: Y"],
     SysExit 1%Z).
Proof.
  intros iso_date urlopen json_loads tabulate inv.
  apply (main_total_miss iso_date urlopen json_loads tabulate inv
           ltac:(discriminate) eq_refl).
  intros k u _. exists "{}", [("items", PList [])]. repeat split.
Defined.

(** X14: an answer of another shape is not reported, it makes the run
    crash: when the decoded body of an answer is not a mapping,
    [fetch_videos] ends with an uncaught [AttributeError] right after that
    request, without a line of its own on standard error; and when a
    returned item is not a mapping, or its id is a list or a mapping,
    [main] ends with an uncaught exception after the requests, before any
    line about missing identifiers and before any table. *)
Theorem malformed_answers_crash
        (iso_date : string -> option string)
        (urlopen : nat -> string -> http_result)
        (json_loads : string -> string + pyval)
        (tabulate : list row -> string -> string)
        (inv : invocation) :
  (forall pre_urls u post_urls got data payload,
      chunk_urls (api_key_of inv) (requested_ids inv)
      = pre_urls ++ u :: post_urls ->
      all_items_of urlopen json_loads 0 pre_urls = Some got ->
      urlopen (length pre_urls) u = Response data ->
      json_loads data = inr payload -> is_dict payload = false ->
      fetch_videos urlopen json_loads (api_key_of inv) (requested_ids inv)
      = (map HttpGet (pre_urls ++ [u]), Uncaught AttributeError))
  /\ (forall flog items,
         requested_ids inv <> [] ->
         PyStr.is_empty (api_key_of inv) = false ->
         fetch_videos urlopen json_loads (api_key_of inv) (requested_ids inv)
         = (flog, Return items) ->
         forallb item_id_ok items = false ->
         exists e,
           main iso_date urlopen json_loads tabulate inv
           = (prompt_log inv ++ flog, Uncaught e)
           /\ stderr_of (prompt_log inv ++ flog) = []
           /\ stdout_of (prompt_log inv ++ flog) = []).
Proof.
  split.
  - intros pre_urls u post_urls got data payload Hcut Hgot Hu Hj Hd.
    destruct (fetch_videos_split urlopen json_loads _ _ pre_urls u post_urls got
                Hcut Hgot) as (i & post & Hi & ->).
    cbn [fetch_loop]. fold (url_at (api_key_of inv) (requested_ids inv) i).
    rewrite Hi, Hu, Hj.
    destruct payload; try discriminate; cbn [py_get lift emit pbind fst snd app];
      now rewrite map_app.
  - intros flog items Hids Hkey Hfetch Hbad.
    rewrite (main_after_fetch iso_date urlopen json_loads tabulate inv flog items
               Hids Hkey Hfetch).
    destruct (found_ids_of items) as [found|e] eqn:Hf.
    + apply found_ids_of_spec in Hf as [Hok _]. congruence.
    + exists e. split; [reflexivity|].
      destruct (fetch_log_quiet _ _ _ _ _ _ Hfetch) as (Qe & Qo & _).
      destruct (prompt_log_quiet inv) as (Pe & Po & _).
      now rewrite stderr_of_app, stdout_of_app, Pe, Po, Qe, Qo.
Qed.

Lemma malformed_answers_crash_witness :
  let iso_date := fun _ : string => @None string in
  let urlopen := fun (_ : nat) (_ : string) => Response "x" in
  let json_loads := fun data : string =>
    @inr string pyval (PDict [("items", PStr data)]) in
  let tabulate := fun (rows : list row) (fmt : string) => fmt in
  let inv := {| arg_video_ids := ["X"]; arg_format := Markdown;
                stdin_line := None; environ_key := Some "k" |} in
  exists e,
    main iso_date urlopen json_loads tabulate inv
    = ([HttpGet (request_url "k" ["X"])], Uncaught e).
Proof.
  intros iso_date urlopen json_loads tabulate inv.
  destruct (proj2 (malformed_answers_crash iso_date urlopen json_loads tabulate inv)
              _ [PStr "x"] ltac:(discriminate) eq_refl eq_refl eq_refl)
    as (e & H & _).
  now exists e.
Defined.

(** ** What a request sends *)

Lemma quote_plus_app a b :
  Url.quote_plus (a ++ b) = (Url.quote_plus a ++ Url.quote_plus b)%string.
Proof.
  induction a as [|c a IH]; [reflexivity|].
  cbn [String.append Url.quote_plus]. rewrite IH.
  destruct (Url.always_safe c); [reflexivity|].
  destruct (Ascii.eqb c " "); [reflexivity|].
  now rewrite string_app_assoc.
Qed.

Lemma quote_plus_safe s :
  all_chars Url.always_safe s = true -> Url.quote_plus s = s.
Proof.
  induction s as [|c s IH]; [reflexivity|]. cbn [all_chars Url.quote_plus].
  intros H. apply andb_true_iff in H as [Hc Hs]. now rewrite Hc, (IH Hs).
Qed.

Lemma quote_plus_join chunk :
  Url.quote_plus (PyStr.join "," chunk)
  = PyStr.join "%2C" (map Url.quote_plus chunk).
Proof.
  induction chunk as [|t rest IH]; [reflexivity|].
  destruct rest as [|t' rest'].
  - reflexivity.
  - change (PyStr.join "," (t :: t' :: rest'))
      with (t ++ "," ++ PyStr.join "," (t' :: rest'))%string.
    rewrite !quote_plus_app, IH. reflexivity.
Qed.

Lemma map_quote_plus_safe chunk :
  Forall (fun t => all_chars Url.always_safe t = true) chunk ->
  map Url.quote_plus chunk = chunk.
Proof.
  induction 1 as [|t rest Ht _ IH]; [reflexivity|].
  cbn [map]. now rewrite (quote_plus_safe t Ht), IH.
Qed.

(** X15: the id parameter of a request is the quoted identifiers of the
    chunk joined by [%2C], the quoted comma; identifiers made of letters,
    digits, [_], [.], [-] and [~] only are sent as they are, and then the
    URL is the endpoint followed by the quoted key, the parts and the
    identifiers joined by [%2C]. *)
Theorem request_url_id_parameter (api_key : string) (chunk : list string) :
  Url.quote_plus (PyStr.join "," chunk)
  = PyStr.join "%2C" (map Url.quote_plus chunk)
  /\ (Forall (fun t => all_chars Url.always_safe t = true) chunk ->
      request_url api_key chunk
      = (API_BASE ++ "?key=" ++ Url.quote_plus api_key
         ++ "&part=snippet%2CcontentDetails%2Cstatistics&id="
         ++ PyStr.join "%2C" chunk)%string).
Proof.
  split; [apply quote_plus_join|]. intros H.
  rewrite request_url_shape, quote_plus_join. now rewrite (map_quote_plus_safe _ H).
Qed.

Lemma request_url_id_parameter_witness :
  request_url "AIza_k-1" ["dQw4w9WgXcQ"; "9bZkp7q19f0"]
  = "https://www.googleapis.com/youtube/v3/videos?key=AIza_k-1&part=snippet%2CcontentDetails%2Cstatistics&id=dQw4w9WgXcQ%2C9bZkp7q19f0".
Proof.
  rewrite (proj2 (request_url_id_parameter "AIza_k-1"
                    ["dQw4w9WgXcQ"; "9bZkp7q19f0"]));
    [reflexivity|repeat constructor].
Defined.

(** X16: white space around a duration that matches the pattern does not
    matter: such a string gives what the string without the white space
    around it gives. *)
Theorem parse_duration_ignores_outer_space (s : string) :
  starts_with_PT (PyStr.strip s) = true ->
  parse_duration (PStr s) = parse_duration (PStr (PyStr.strip s)).
Proof.
  intros Hpt. unfold parse_duration.
  assert (Hs : PyStr.is_empty s = false).
  { destruct s; [discriminate|reflexivity]. }
  assert (Ht : PyStr.is_empty (PyStr.strip s) = false).
  { destruct (PyStr.strip s); [discriminate|reflexivity]. }
  cbn [truthy]. rewrite Hs, Ht. cbn [negb]. rewrite strip_strip.
  destruct (DURATION_RE_match (PyStr.strip s)) as [[[h mn] sec]|] eqn:Hm;
    [reflexivity|].
  apply DURATION_RE_match_None in Hm. congruence.
Qed.

Lemma parse_duration_ignores_outer_space_witness :
  parse_duration (PStr "  PT4M13S  ") = parse_duration (PStr "PT4M13S").
Proof.
  apply (parse_duration_ignores_outer_space "  PT4M13S  "). reflexivity.
Defined.

(** ** Fields of an unexpected type *)

Lemma sub_get_present d sub m field raw default :
  dict_lookup d sub = Some (PDict m) -> dict_lookup m field = Some raw ->
  sub_get (PDict d) sub field default = Ok raw.
Proof.
  intros Hd Hm. unfold sub_get. cbn [py_get]. rewrite Hd. cbn [bind].
  unfold py_or. destruct m as [|kv m']; [discriminate|].
  cbn [truthy py_get]. now rewrite Hm.
Qed.

(** X17: the date extractor never raises on an item whose snippet is
    absent, a false value or a mapping, whatever [publishedAt] holds: a
    string the date library accepts gives the formatted date, a string it
    rejects comes back unchanged, and a true value that is not a string
    comes back as it is.  The duration extractor is not as forgiving: a
    true duration that is not a string makes it raise [AttributeError]. *)
Theorem date_extractor_forgiving
        (iso_date : string -> option string) (d : list (string * pyval)) :
  (sub_ok d "snippet" = true ->
   exists v, _col_publication_date iso_date (PDict d) = Ok v)
  /\ (forall m raw,
         dict_lookup d "snippet" = Some (PDict m) ->
         dict_lookup m "publishedAt" = Some raw -> truthy raw = true ->
         _col_publication_date iso_date (PDict d)
         = Ok match raw with
              | PStr r =>
                  match iso_date (PyStr.replace_char "Z" "+00:00" r) with
                  | Some out => PStr out
                  | None => raw
                  end
              | _ => raw
              end)
  /\ (forall m raw,
         dict_lookup d "contentDetails" = Some (PDict m) ->
         dict_lookup m "duration" = Some raw -> truthy raw = true ->
         (forall s, raw <> PStr s) ->
         _col_duration (PDict d) = Raise AttributeError).
Proof.
  split; [apply _col_publication_date_total|]. split.
  - intros m raw Hd Hm Ht. unfold _col_publication_date.
    rewrite (sub_get_present d "snippet" m "publishedAt" raw _ Hd Hm).
    cbn [bind]. rewrite Ht. cbn [negb].
    destruct raw; try reflexivity. now destruct (iso_date _).
  - intros m raw Hd Hm Ht Hns. unfold _col_duration.
    rewrite (sub_get_present d "contentDetails" m "duration" raw _ Hd Hm).
    cbn [bind]. unfold parse_duration. rewrite Ht. cbn [negb].
    destruct raw; try reflexivity. now elim (Hns s).
Qed.

Lemma date_extractor_forgiving_witness :
  let iso_date := fun s : string =>
    if String.eqb s "2020-01-02T03:04:05+00:00" then Some "2020-01-02" else None in
  _col_publication_date iso_date
    (PDict [("snippet", PDict [("publishedAt", PStr "2020-01-02T03:04:05Z")])])
  = Ok (PStr "2020-01-02")
  /\ _col_publication_date iso_date
       (PDict [("snippet", PDict [("publishedAt", PInt 1577934245)])])
     = Ok (PInt 1577934245)
  /\ _col_duration (PDict [("contentDetails", PDict [("duration", PInt 253)])])
     = Raise AttributeError.
Proof.
  intros iso_date. split; [|split].
  - exact (proj1 (proj2 (date_extractor_forgiving iso_date
             [("snippet", PDict [("publishedAt", PStr "2020-01-02T03:04:05Z")])]))
             _ _ eq_refl eq_refl eq_refl).
  - exact (proj1 (proj2 (date_extractor_forgiving iso_date
             [("snippet", PDict [("publishedAt", PInt 1577934245)])]))
             _ _ eq_refl eq_refl eq_refl).
  - apply (proj2 (proj2 (date_extractor_forgiving iso_date
             [("contentDetails", PDict [("duration", PInt 253)])]))
             _ _ eq_refl eq_refl eq_refl).
    discriminate.
Defined.

(** ** The program from the command line *)

Lemma In_stdout_of text log : In (Stdout text) log <-> In text (stdout_of log).
Proof.
  induction log as [|e log IH]; [tauto|].
  destruct e; cbn [In stdout_of]; rewrite <- IH;
    try (split; [intros [H|H]; [discriminate|exact H]|tauto]).
  split; (intros [H|H]; [left; congruence|now right]).
Qed.

Lemma shown_rows_non_empty f rows : rows <> [] -> shown_rows f rows <> [].
Proof.
  destruct rows as [|r rs]; [congruence|]. intros _.
  destruct f; discriminate.
Qed.

(** C9, as the code has it: when [parse_args] returns the arguments, the
    process ends with status 0 or 1; it ends with status 0 exactly when the
    table of at least one row was printed, the rows being built from the
    items fetched; and it ends with status 1 when the API key is missing or
    blank, when a request of the run meets an HTTP error (whether or not
    its body can be read) or a transport error, when the body of an answer
    does not decode, when no identifier is left after normalisation, and
    when no item came back.  When [parse_args] ends the program itself,
    the status is its own: 0 after the help text, with no request made and
    no row rendered, and 2 after a usage error. *)
Theorem main_argv_exit_status
        (parse_args : list string -> parse_result)
        (iso_date : string -> option string)
        (urlopen : nat -> string -> http_result)
        (json_loads : string -> string + pyval)
        (tabulate : list row -> string -> string)
        (argv : list string) (stdin environ : option string) :
  let run := main_argv parse_args iso_date urlopen json_loads tabulate
               argv stdin environ in
  (forall text,
      parse_args argv = HelpExit text ->
      run = ([Stdout text], SysExit 0%Z) /\ exit_status (snd run) = 0%Z)
  /\ (forall message,
         parse_args argv = UsageError message ->
         run = ([Stderr message], SysExit 2%Z) /\ exit_status (snd run) = 2%Z)
  /\ (forall video_ids format,
         parse_args argv = Parsed video_ids format ->
         let inv := {| arg_video_ids := video_ids; arg_format := format;
                       stdin_line := stdin; environ_key := environ |} in
         let ids := requested_ids inv in
         let key := api_key_of inv in
         (exit_status (snd run) = 0%Z \/ exit_status (snd run) = 1%Z)
         /\ (exit_status (snd run) = 0%Z <-> rendered tabulate (fst run))
         /\ (exit_status (snd run) = 0%Z ->
             exists items rows,
               snd (fetch_videos urlopen json_loads key ids) = Return items
               /\ items_to_rows iso_date items None = Ok rows
               /\ (1 <= length rows)%nat
               /\ stdout_of (fst run)
                  = [tabulate (shown_rows format rows) (tablefmt_of format)])
         /\ (key = "" -> exit_status (snd run) = 1%Z)
         /\ (forall k u code body,
                nth_error (chunk_urls key ids) k = Some u ->
                urlopen k u = HTTPError code body ->
                exit_status (snd run) = 1%Z)
         /\ (forall k u code,
                nth_error (chunk_urls key ids) k = Some u ->
                urlopen k u = HTTPErrorUnread code ->
                exit_status (snd run) = 1%Z)
         /\ (forall k u reason,
                nth_error (chunk_urls key ids) k = Some u ->
                urlopen k u = URLError reason -> exit_status (snd run) = 1%Z)
         /\ (forall k u data e,
                nth_error (chunk_urls key ids) k = Some u ->
                urlopen k u = Response data -> json_loads data = inl e ->
                exit_status (snd run) = 1%Z)
         /\ (ids = [] -> exit_status (snd run) = 1%Z)
         /\ (snd (fetch_videos urlopen json_loads key ids) = Return [] ->
             exit_status (snd run) = 1%Z)).
Proof.
  intros run. split; [|split].
  - intros text H. subst run. unfold main_argv. rewrite H. split; reflexivity.
  - intros message H. subst run. unfold main_argv. rewrite H. split; reflexivity.
  - intros video_ids format H inv ids key.
    assert (E : run = main iso_date urlopen json_loads tabulate inv)
      by (subst run; unfold main_argv; now rewrite H).
    rewrite E.
    destruct (main_exit_status iso_date urlopen json_loads tabulate inv)
      as (S01 & Sout & Srows & Skey & Shttp & Surl & Sjson & Sids & Snone).
    split; [exact S01|]. split.
    { split.
      - intros S0. destruct (Srows S0) as (items & rows & _ & _ & Hlen & Hout).
        exists (shown_rows format rows), (tablefmt_of format). split.
        + apply shown_rows_non_empty. destruct rows; [cbn in Hlen; lia|discriminate].
        + apply In_stdout_of. rewrite Hout. now left.
      - intros (rows & fmt & _ & Hin). apply Sout.
        apply In_stdout_of in Hin. intros Hnil. now rewrite Hnil in Hin. }
    split; [exact Srows|]. split; [exact Skey|]. split; [exact Shttp|].
    split.
    { intros k u code Hk Hu.
      apply (failed_request_status iso_date urlopen json_loads tabulate inv k u Hk).
      unfold chunk_items. now rewrite Hu. }
    split; [exact Surl|]. split; [exact Sjson|]. split; [exact Sids|exact Snone].
Qed.

Lemma main_argv_exit_status_witness :
  let parse_args := fun argv : list string =>
    match argv with
    | [a] => if String.eqb a "--help" then HelpExit "usage: yt-extract"
             else if String.eqb a "--bogus"
                  then UsageError "yt-extract: error: unrecognized arguments"
                  else Parsed argv Markdown
    | _ => Parsed argv Markdown
    end in
  let iso_date := fun _ : string => @None string in
  let urlopen := fun (_ : nat) (_ : string) => HTTPErrorUnread 500 in
  let json_loads := fun data : string => @inr string pyval (PDict []) in
  let tabulate := fun (rows : list row) (fmt : string) => fmt in
  exit_status (snd (main_argv parse_args iso_date urlopen json_loads tabulate
                      ["--help"] None None)) = 0%Z
  /\ exit_status (snd (main_argv parse_args iso_date urlopen json_loads tabulate
                         ["--bogus"] None None)) = 2%Z
  /\ exit_status (snd (main_argv parse_args iso_date urlopen json_loads tabulate
                         ["X"] None (Some "k"))) = 1%Z
  /\ exit_status (snd (main_argv parse_args iso_date urlopen json_loads tabulate
                         ["X"] None (Some "  "))) = 1%Z.
Proof.
  intros parse_args iso_date urlopen json_loads tabulate.
  split; [|split; [|split]].
  - exact (proj2 (proj1 (main_argv_exit_status parse_args iso_date urlopen
                           json_loads tabulate ["--help"] None None)
                        "usage: yt-extract" eq_refl)).
  - exact (proj2 (proj1 (proj2 (main_argv_exit_status parse_args iso_date urlopen
                           json_loads tabulate ["--bogus"] None None))
                        "yt-extract: error: unrecognized arguments" eq_refl)).
  - destruct (proj2 (proj2 (main_argv_exit_status parse_args iso_date urlopen
                              json_loads tabulate ["X"] None (Some "k")))
                    ["X"] Markdown eq_refl)
      as (_ & _ & _ & _ & _ & Hunread & _).
    exact (Hunread 0%nat (request_url "k" ["X"]) 500%N eq_refl eq_refl).
  - destruct (proj2 (proj2 (main_argv_exit_status parse_args iso_date urlopen
                              json_loads tabulate ["X"] None (Some "  ")))
                    ["X"] Markdown eq_refl)
      as (_ & _ & _ & Hkey & _).
    exact (Hkey eq_refl).
Defined.

(** C9 as stated fails: for [--help] the parser prints its help text and
    ends the program with status 0, and no row was rendered: nothing was
    requested and the log holds the help text only. *)
Lemma help_exits_0_without_row :
  let parse_args := fun argv : list string =>
    match argv with
    | [a] => if String.eqb a "--help"
             then HelpExit "usage: yt-extract [-h] [--format {grid,markdown}] [video_ids ...]"
             else Parsed argv Markdown
    | _ => Parsed argv Markdown
    end in
  let iso_date := fun _ : string => @None string in
  let urlopen := fun (_ : nat) (_ : string) => Response "{}" in
  let json_loads := fun data : string => @inr string pyval (PDict []) in
  let tabulate := fun (rows : list row) (fmt : string) => "| id |" in
  let run := main_argv parse_args iso_date urlopen json_loads tabulate
               ["--help"] None (Some "k") in
  exit_status (snd run) = 0%Z
  /\ fst run
     = [Stdout "usage: yt-extract [-h] [--format {grid,markdown}] [video_ids ...]"]
  /\ requests_of (fst run) = []
  /\ (rendered tabulate (fst run) -> False).
Proof.
  intros parse_args iso_date urlopen json_loads tabulate run.
  split; [reflexivity|]. split; [reflexivity|]. split; [reflexivity|].
  intros (rows & fmt & _ & [H|[]]). discriminate H.
Qed.
